(** * Book Library Management API: a shallow embedding and its properties

    The development follows [app/models.py], [app/schemas.py], [app/auth.py]
    and [app/endpoints.py].  The relational store is three tables kept in
    insertion (rowid) order; every handler is a function from the store to a
    new store and an outcome, an outcome being either the returned payload or
    the exception the handler raises.  [datetime.now()] is an explicit
    argument of the handlers that read the clock.

    Conventions.  Python [int]s are [Z] and timestamps are [Z].  A [str] is
    a [string] read as a sequence of characters, one [ascii] per character
    (not per byte of an encoding), so the strings of the model are those
    whose code points are below 256.  A request is what the handler
    receives once the framework has parsed and validated it.  The database
    is the default one ([sqlite:///./library.db]): a fresh integer key is
    the largest key of the table plus one, an integer bound to a statement
    must fit a signed 64-bit INTEGER, [LIKE] has no escape character,
    reads a text up to its first NUL character and takes no pattern longer
    than 50000 bytes, and [lower()] folds the letters [A]..[Z] and nothing
    else.  A commit that fails rolls back, so the store is then the one the
    request started from. *)

From Stdlib Require Import ZArith List String Ascii Bool Lia.
From Stdlib Require Import DecimalString.
Import ListNotations.
Local Open Scope string_scope.
Local Open Scope Z_scope.

(** ** Rows: [app/models.py] *)

Module models.

(** [class Author(Base)]: [bio] is the only nullable column. *)
Record Author := mkAuthor {
  author_id : Z;
  name : string;
  bio : option string
}.

(** [class Book(Base)]: every column is [nullable=False]. *)
Record Book := mkBook {
  book_id : Z;
  title : string;
  genre : string;
  isbn : string;
  book_author_id : Z
}.

(** [class LoanRecord(Base)]: [returned_at] is the only nullable column. *)
Record LoanRecord := mkLoanRecord {
  loan_id : Z;
  loan_book_id : Z;
  borrower_name : string;
  loaned_at : Z;
  returned_at : option Z;
  is_returned : bool
}.

End models.

(** ** Request bodies: [app/schemas.py] *)

Module schemas.

Record AuthorCreate := mkAuthorCreate {
  ac_name : string;
  ac_bio : option string
}.

Record BookCreate := mkBookCreate {
  bc_title : string;
  bc_genre : string;
  bc_isbn : string;
  bc_author_id : Z
}.

(** [class BookUpdate]: three [Optional[str]] fields defaulting to [None].
    [model_dump(exclude_unset=True)] keeps a key exactly when the caller
    sent it, so a field has three shapes: [None] (key omitted),
    [Some None] (key sent with a JSON null) and [Some (Some v)]. *)
Record BookUpdate := mkBookUpdate {
  bu_title : option (option string);
  bu_genre : option (option string);
  bu_isbn : option (option string)
}.

Record LoanRecordCreate := mkLoanRecordCreate {
  lc_borrower_name : string
}.

End schemas.

Import models schemas.

(** ** The store: [app/database.py] *)

Record Store := mkStore {
  authors : list Author;
  books : list Book;
  loan_records : list LoanRecord
}.

Definition empty_store : Store := mkStore [] [] [].

(** An integer primary key without an explicit value gets one more than the
    largest key in the table (1 in an empty table). *)
Definition next_id (ids : list Z) : Z := 1 + fold_right Z.max 0 ids.

(** ** Outcomes *)

(** The exceptions a handler can end with: [fastapi.HTTPException] raised
    by the handler itself, [sqlalchemy.exc.IntegrityError] raised by
    [db.commit()] when a [nullable=False] column would receive NULL,
    [sqlalchemy.exc.OperationalError] raised when SQLite fails on a
    statement it has started to run, and the [OverflowError] of the
    [sqlite3] driver when a statement is given an [int] that does not fit
    SQLite's INTEGER.  The detail of the two database errors is the message
    of the driver. *)
Inductive Exception :=
| HTTPException (status_code : Z) (detail : string)
| IntegrityError (detail : string)
| OperationalError (detail : string)
| OverflowError (detail : string).

Inductive outcome (A : Type) :=
| Ok (a : A)
| Raise (e : Exception).
Arguments Ok {A} a.
Arguments Raise {A} e.

Definition HTTP_400_BAD_REQUEST : Z := 400.
Definition HTTP_401_UNAUTHORIZED : Z := 401.
Definition HTTP_403_FORBIDDEN : Z := 403.
Definition HTTP_404_NOT_FOUND : Z := 404.

(** The integers the driver can bind to a statement: those of SQLite's
    signed 64-bit INTEGER. *)
Definition sqlite_integer (i : Z) : bool :=
  (- 2 ^ 63 <=? i) && (i <=? 2 ^ 63 - 1).

Definition too_large : Exception :=
  OverflowError "Python int too large to convert to SQLite INTEGER".

(** What a lookup by id ends with when it selects no row.  The id is a
    parameter of the SELECT: when it is an SQLite INTEGER the query runs,
    [.first()] is [None] and the handler raises its 404; when it is not,
    the driver refuses the parameter and the [OverflowError] leaves the
    handler instead.  The ids in the tables are SQLite INTEGERs, so an id
    that the driver refuses is the id of no row. *)
Definition no_row (i : Z) (detail : string) : Exception :=
  if sqlite_integer i then HTTPException HTTP_404_NOT_FOUND detail
  else too_large.

(** [.offset(skip).limit(limit)]: both numbers are parameters of the
    SELECT, and the page is returned when the driver takes them. *)
Definition offset_limit {A : Type} (skip limit : nat) (page : A) : outcome A :=
  if sqlite_integer (Z.of_nat skip) && sqlite_integer (Z.of_nat limit)
  then Ok page
  else Raise too_large.

(** The commit of an UPDATE that would put NULL in a [nullable=False]
    column: SQLite names the column. *)
Definition not_null (column : string) : Exception :=
  IntegrityError ("NOT NULL constraint failed: " ++ column).

(** [str(n)] for a Python [int], as interpolated by the f-strings. *)
Definition str_of_int (n : Z) : string := NilZero.string_of_int (Z.to_int n).

(** ** Queries *)

(** [db.query(M).filter(M.id == i).first()], once the driver has taken the
    id: the first row with that id, if any (see [no_row] for an id the
    driver does not take). *)
Definition query_author (s : Store) (i : Z) : option Author :=
  find (fun a => author_id a =? i) (authors s).

Definition query_book (s : Store) (i : Z) : option Book :=
  find (fun b => book_id b =? i) (books s).

Definition query_loan (s : Store) (i : Z) : option LoanRecord :=
  find (fun l => loan_id l =? i) (loan_records s).

(** [db.query(models.Book).filter(models.Book.isbn == v).first()] *)
Definition query_book_by_isbn (s : Store) (v : string) : option Book :=
  find (fun b => String.eqb (isbn b) v) (books s).

(** The filter of [loan_book]:
    [LoanRecord.book_id == book_id, LoanRecord.is_returned == False]. *)
Definition is_active_for (bid : Z) (l : LoanRecord) : bool :=
  (loan_book_id l =? bid) && negb (is_returned l).

Definition query_active_loan (s : Store) (bid : Z) : option LoanRecord :=
  find (is_active_for bid) (loan_records s).

(** [query.offset(skip).limit(limit).all()], once the driver has taken the
    two numbers (see [offset_limit]): the rows of the page. *)
Definition paginate {A : Type} (skip limit : nat) (rows : list A) : list A :=
  firstn limit (skipn skip rows).

(** ** SQL [LIKE], as used by [models.Book.genre.ilike(...)]

    The pattern language has two wildcards and no escape character: [%]
    matches any run of characters (the empty one included) and [_] matches
    exactly one character; every other character matches itself. *)

Fixpoint pattern_compare (pattern : string) : string -> bool :=
  match pattern with
  | EmptyString =>
      fun text => match text with EmptyString => true | String _ _ => false end
  | String c rest =>
      if Ascii.eqb c "%" then
        fix any_run (text : string) : bool :=
          pattern_compare rest text
          || match text with
             | EmptyString => false
             | String _ text' => any_run text'
             end
      else if Ascii.eqb c "_" then
        fun text =>
          match text with
          | EmptyString => false
          | String _ text' => pattern_compare rest text'
          end
      else
        fun text =>
          match text with
          | EmptyString => false
          | String d text' => Ascii.eqb c d && pattern_compare rest text'
          end
  end.

(** SQLite reads the pattern and the text of a [LIKE] as NUL-terminated:
    what follows the first NUL character of either is not looked at. *)
Fixpoint until_nul (s : string) : string :=
  match s with
  | EmptyString => EmptyString
  | String c s' => if Ascii.eqb c Ascii.zero then EmptyString
                   else String c (until_nul s')
  end.

Definition like (pattern text : string) : bool :=
  pattern_compare (until_nul pattern) (until_nul text).

(** The length limit of a [LIKE] pattern, in bytes of its UTF-8 encoding
    (one byte for a character below 128, two for the others of the model),
    the NUL characters and what follows them included.  SQLite checks it
    each time it evaluates the [LIKE], that is on each row it tries. *)
Definition SQLITE_MAX_LIKE_PATTERN_LENGTH : Z := 50000.

Fixpoint utf8_length (s : string) : Z :=
  match s with
  | EmptyString => 0
  | String c s' =>
      (if (nat_of_ascii c <? 128)%nat then 1 else 2) + utf8_length s'
  end.

Definition too_complex : Exception :=
  OperationalError "LIKE or GLOB pattern too complex".

(** [lower()] folds the 26 letters [A]..[Z] and nothing else. *)
Definition lower_char (c : ascii) : ascii :=
  let n := nat_of_ascii c in
  if (Nat.leb 65 n && Nat.leb n 90)%bool then ascii_of_nat (n + 32) else c.

Fixpoint lower (s : string) : string :=
  match s with
  | EmptyString => EmptyString
  | String c s' => String (lower_char c) (lower s')
  end.

(** [column.ilike(pattern)] is rendered as
    [lower(column) LIKE lower(pattern)]. *)
Definition ilike (column pattern : string) : bool :=
  like (lower pattern) (lower column).

(** Truth value of an [Optional[str]], as tested by [if genre:] and by
    [if not api_key:]: [None] and the empty string are falsy. *)
Definition truthy (o : option string) : option string :=
  match o with
  | Some EmptyString => None
  | _ => o
  end.

(** ** [app/auth.py] and [app/endpoints.py] *)

Section App.

(** The process environment read by [os.getenv]. *)
Variable environ : string -> option string.

Definition getenv (key default : string) : string :=
  match environ key with
  | Some v => v
  | None => default
  end.

Definition AUTH_KEY : string := getenv "AUTH_KEY" "dev-secret-key-12345".

(** [api_key_header = APIKeyHeader(name="X-API-Key", auto_error=False)]:
    the scheme reads the [X-API-Key] header of the request and hands its
    value on; a header that is missing or empty is falsy ([if not api_key])
    and, [auto_error] being off, the scheme then returns [None] instead of
    raising. *)
Definition api_key_header (x_api_key : option string) : option string :=
  truthy x_api_key.

(** [verify_api_key]: the argument is what [Security(api_key_header)]
    yields for the request. *)
Definition verify_api_key (api_key : option string) : outcome bool :=
  match api_key with
  | None =>
      Raise (HTTPException HTTP_401_UNAUTHORIZED
               "API Key is missing. Include it in the 'X-API-Key' header.")
  | Some k =>
      if negb (String.eqb k AUTH_KEY) then
        Raise (HTTPException HTTP_403_FORBIDDEN
                 "Invalid API Key. Access denied.")
      else Ok true
  end.

(** [health_check] *)
Definition health_check : string * string := ("healthy", "library-api").

(** [create_author] *)
Definition create_author (author : AuthorCreate) (s : Store)
  : Store * outcome Author :=
  let db_author :=
    mkAuthor (next_id (map author_id (authors s)))
             (ac_name author) (ac_bio author) in
  (mkStore (authors s ++ [db_author]) (books s) (loan_records s),
   Ok db_author).

(** [list_authors] *)
Definition list_authors (skip limit : nat) (s : Store) : list Author :=
  paginate skip limit (authors s).

(** [get_author] *)
Definition get_author (author_id : Z) (s : Store) : outcome Author :=
  match query_author s author_id with
  | None =>
      Raise (no_row author_id
               ("Author with id " ++ str_of_int author_id ++ " not found"))
  | Some author => Ok author
  end.

(** [create_book] *)
Definition create_book (book : BookCreate) (s : Store)
  : Store * outcome Book :=
  match query_author s (bc_author_id book) with
  | None =>
      (s, Raise (no_row (bc_author_id book)
                   ("Author with id " ++ str_of_int (bc_author_id book)
                    ++ " not found")))
  | Some _ =>
      match query_book_by_isbn s (bc_isbn book) with
      | Some _ =>
          (s, Raise (HTTPException HTTP_400_BAD_REQUEST
                       ("Book with ISBN " ++ bc_isbn book
                        ++ " already exists")))
      | None =>
          let db_book :=
            mkBook (next_id (map book_id (books s)))
                   (bc_title book) (bc_genre book) (bc_isbn book)
                   (bc_author_id book) in
          (mkStore (authors s) (books s ++ [db_book]) (loan_records s),
           Ok db_book)
      end
  end.

(** [list_books] *)
Definition list_books (skip limit : nat) (genre : option string) (s : Store)
  : list Book :=
  let query :=
    match truthy genre with
    | Some g => filter (fun b => ilike (models.genre b) ("%" ++ g ++ "%"))
                       (books s)
    | None => books s
    end in
  paginate skip limit query.

(** The SELECT of [list_books] runs its [LIKE] on the first row of the
    table, unless there is no genre to filter on, no row in the table or
    no row asked for; the statement fails there when the pattern is longer
    than SQLite allows. *)
Definition like_runs (limit : nat) (genre : option string) (s : Store)
  : bool :=
  match truthy genre, books s, limit with
  | Some g, _ :: _, S _ =>
      utf8_length (lower ("%" ++ g ++ "%")) <=? SQLITE_MAX_LIKE_PATTERN_LENGTH
  | _, _, _ => true
  end.

Definition like_limit {A : Type} (limit : nat) (genre : option string)
    (s : Store) (r : outcome A) : outcome A :=
  match r with
  | Ok page => if like_runs limit genre s then Ok page else Raise too_complex
  | Raise e => Raise e
  end.

(** A genre filter whose pattern SQLite takes, whatever the table: none,
    or a genre string that leaves room for the two [%] around it. *)
Definition genre_fits (genre : option string) : bool :=
  match genre with
  | Some g => utf8_length g + 2 <=? SQLITE_MAX_LIKE_PATTERN_LENGTH
  | None => true
  end.

(** [get_book] *)
Definition get_book (book_id : Z) (s : Store) : outcome Book :=
  match query_book s book_id with
  | None =>
      Raise (no_row book_id
               ("Book with id " ++ str_of_int book_id ++ " not found"))
  | Some book => Ok book
  end.

(** The [for key, value in update_data.items(): setattr(db_book, key, value)]
    loop, one attribute at a time: a key that is not in [update_data]
    keeps the current value, a key that is there takes the value sent,
    which may be [None]. *)
Definition setattr (current : string) (sent : option (option string))
  : option string :=
  match sent with
  | None => Some current
  | Some value => value
  end.

(** [UPDATE books SET ... WHERE books.id = pk], issued by [db.commit()]:
    the statement sets the columns whose keys are in [update_data]; the
    other columns, and the rows with another id, keep their values. *)
Definition set_column (column : string) (sent : option (option string))
  : string :=
  match sent with
  | Some (Some v) => v
  | _ => column
  end.

Definition update_books_where_id (pk : Z) (u : BookUpdate) (rows : list Book)
  : list Book :=
  map (fun b =>
         if book_id b =? pk then
           mkBook (book_id b)
                  (set_column (title b) (bu_title u))
                  (set_column (genre b) (bu_genre u))
                  (set_column (isbn b) (bu_isbn u))
                  (book_author_id b)
         else b)
      rows.

(** The uniqueness check of [update_book]: it runs when the key [isbn] is in
    [update_data] with a value other than [db_book.isbn], and yields the
    ISBN to report when [existing_book] is found.  With a JSON null the
    comparison is against NULL, which selects no row of a non-nullable
    column. *)
Definition existing_isbn (s : Store) (db_book : Book)
    (sent : option (option string)) : option string :=
  match sent with
  | Some (Some v) =>
      if negb (String.eqb v (isbn db_book)) then
        match query_book_by_isbn s v with
        | Some _ => Some v
        | None => None
        end
      else None
  | Some None => None
  | None => None
  end.

(** [update_book] *)
Definition update_book (book_id : Z) (book_update : BookUpdate) (s : Store)
  : Store * outcome Book :=
  match query_book s book_id with
  | None =>
      (s, Raise (no_row book_id
                   ("Book with id " ++ str_of_int book_id ++ " not found")))
  | Some db_book =>
      match existing_isbn s db_book (bu_isbn book_update) with
      | Some v =>
          (s, Raise (HTTPException HTTP_400_BAD_REQUEST
                       ("Book with ISBN " ++ v ++ " already exists")))
      | None =>
          match setattr (title db_book) (bu_title book_update),
                setattr (genre db_book) (bu_genre book_update),
                setattr (isbn db_book) (bu_isbn book_update) with
          | Some t, Some g, Some i =>
              (mkStore (authors s)
                       (update_books_where_id (models.book_id db_book)
                                              book_update (books s))
                       (loan_records s),
               Ok (mkBook (models.book_id db_book) t g i
                          (book_author_id db_book)))
          | None, _, _ => (s, Raise (not_null "books.title"))
          | _, None, _ => (s, Raise (not_null "books.genre"))
          | _, _, None => (s, Raise (not_null "books.isbn"))
          end
      end
  end.

(** [loan_book] *)
Definition loan_book (now : Z) (book_id : Z) (loan_data : LoanRecordCreate)
                     (s : Store) : Store * outcome LoanRecord :=
  match query_book s book_id with
  | None =>
      (s, Raise (no_row book_id
                   ("Book with id " ++ str_of_int book_id ++ " not found")))
  | Some _ =>
      match query_active_loan s book_id with
      | Some active_loan =>
          (s, Raise (HTTPException HTTP_400_BAD_REQUEST
                       ("Book is already loaned out to "
                        ++ borrower_name active_loan)))
      | None =>
          let db_loan :=
            mkLoanRecord (next_id (map loan_id (loan_records s)))
                         book_id (lc_borrower_name loan_data)
                         now None false in
          (mkStore (authors s) (books s) (loan_records s ++ [db_loan]),
           Ok db_loan)
      end
  end.

(** The row written by
    [UPDATE loan_records SET is_returned=1, returned_at=now WHERE id = pk]. *)
Definition mark_returned (now : Z) (l : LoanRecord) : LoanRecord :=
  mkLoanRecord (loan_id l) (loan_book_id l) (borrower_name l)
               (loaned_at l) (Some now) true.

Definition update_loans_where_id (pk : Z) (now : Z) (rows : list LoanRecord)
  : list LoanRecord :=
  map (fun l => if loan_id l =? pk then mark_returned now l else l) rows.

(** [return_book] *)
Definition return_book (now : Z) (loan_id : Z) (s : Store)
  : Store * outcome LoanRecord :=
  match query_loan s loan_id with
  | None =>
      (s, Raise (no_row loan_id
                   ("Loan record with id " ++ str_of_int loan_id
                    ++ " not found")))
  | Some loan =>
      if is_returned loan then
        (s, Raise (HTTPException HTTP_400_BAD_REQUEST
                     "This book has already been returned"))
      else
        (mkStore (authors s) (books s)
                 (update_loans_where_id (models.loan_id loan) now
                                        (loan_records s)),
         Ok (mark_returned now loan))
  end.

(** [list_loans] *)
Definition list_loans (skip limit : nat) (active_only : bool) (s : Store)
  : list LoanRecord :=
  let query :=
    if active_only
    then filter (fun l => negb (is_returned l)) (loan_records s)
    else loan_records s in
  paginate skip limit query.

(** ** The application: routes and their dependencies

    One constructor per route of [app].  The body, path and query
    parameters are the values the handler receives once the framework has
    parsed and validated them. *)

Inductive Request :=
| GET_health
| POST_authors (author : AuthorCreate)
| GET_authors (skip limit : nat)
| GET_author (author_id : Z)
| POST_books (book : BookCreate)
| GET_books (skip limit : nat) (genre : option string)
| GET_book (book_id : Z)
| PUT_book (book_id : Z) (book_update : BookUpdate)
| POST_book_loan (book_id : Z) (loan_data : LoanRecordCreate)
| POST_loan_return (loan_id : Z)
| GET_loans (skip limit : nat) (active_only : bool).

Inductive Response :=
| JSON_health (status service : string)
| JSON_author (a : Author)
| JSON_authors (l : list Author)
| JSON_book (b : Book)
| JSON_books (l : list Book)
| JSON_loan (l : LoanRecord)
| JSON_loans (l : list LoanRecord).

Definition respond {A : Type} (wrap : A -> Response) (r : Store * outcome A)
  : Store * outcome Response :=
  match r with
  | (s, Ok a) => (s, Ok (wrap a))
  | (s, Raise e) => (s, Raise e)
  end.

(** The handler of a route, without its dependencies. *)
Definition endpoint (now : Z) (req : Request) (s : Store)
  : Store * outcome Response :=
  match req with
  | GET_health =>
      (s, Ok (JSON_health (fst health_check) (snd health_check)))
  | POST_authors author => respond JSON_author (create_author author s)
  | GET_authors skip limit =>
      (s, offset_limit skip limit (JSON_authors (list_authors skip limit s)))
  | GET_author i => respond JSON_author (s, get_author i s)
  | POST_books book => respond JSON_book (create_book book s)
  | GET_books skip limit genre =>
      (s, like_limit limit genre s
            (offset_limit skip limit
               (JSON_books (list_books skip limit genre s))))
  | GET_book i => respond JSON_book (s, get_book i s)
  | PUT_book i book_update => respond JSON_book (update_book i book_update s)
  | POST_book_loan i loan_data =>
      respond JSON_loan (loan_book now i loan_data s)
  | POST_loan_return i => respond JSON_loan (return_book now i s)
  | GET_loans skip limit active_only =>
      (s, offset_limit skip limit
            (JSON_loans (list_loans skip limit active_only s)))
  end.

(** [dependencies=[Depends(verify_api_key)]]: the dependency is called on
    what its own dependency [api_key_header] extracts from the request, and
    the handler only runs when it returns. *)
Definition Depends_verify_api_key (x_api_key : option string)
    (h : Store -> Store * outcome Response) (s : Store)
  : Store * outcome Response :=
  match verify_api_key (api_key_header x_api_key) with
  | Raise e => (s, Raise e)
  | Ok _ => h s
  end.

(** The routing table: the five decorators that list [verify_api_key] are
    those of [create_author], [create_book], [update_book], [loan_book] and
    [return_book].  A request comes with its [X-API-Key] header, [None]
    when it has none. *)
Definition app (x_api_key : option string) (now : Z) (req : Request)
    (s : Store) : Store * outcome Response :=
  match req with
  | POST_authors _ | POST_books _ | PUT_book _ _
  | POST_book_loan _ _ | POST_loan_return _ =>
      Depends_verify_api_key x_api_key (endpoint now req) s
  | GET_health | GET_authors _ _ | GET_author _ | GET_books _ _ _
  | GET_book _ | GET_loans _ _ _ =>
      endpoint now req s
  end.

(** The stores the service can be in: the empty database created by
    [create_all], and whatever a request leaves behind. *)
Inductive reachable : Store -> Prop :=
| reachable_empty : reachable empty_store
| reachable_request x_api_key now req s :
    reachable s -> reachable (fst (app x_api_key now req s)).

End App.

(** ** Vocabulary of the specification *)

(** Number of active loans of a book: rows with [book_id = b] and
    [is_returned = false]. *)
Definition active_loans (bid : Z) (s : Store) : list LoanRecord :=
  filter (is_active_for bid) (loan_records s).

Definition active_loan_count (bid : Z) (s : Store) : nat :=
  List.length (active_loans bid s).

(** The loan invariant of the data model. *)
Definition one_active_loan_per_book (s : Store) : Prop :=
  forall bid, (active_loan_count bid s <= 1)%nat.

(** The five mutating operations. *)
Definition mutating (req : Request) : bool :=
  match req with
  | POST_authors _ | POST_books _ | PUT_book _ _
  | POST_book_loan _ _ | POST_loan_return _ => true
  | _ => false
  end.

(** The error kinds of the specification, read off the status code. *)
Inductive ErrorKind := NotFound | Conflict | Unauthenticated | Forbidden.

Definition raises {A : Type} (o : outcome A) (k : ErrorKind) : Prop :=
  exists detail,
    o = Raise (HTTPException
                 match k with
                 | NotFound => HTTP_404_NOT_FOUND
                 | Conflict => HTTP_400_BAD_REQUEST
                 | Unauthenticated => HTTP_401_UNAUTHORIZED
                 | Forbidden => HTTP_403_FORBIDDEN
                 end detail).

(** [s] occurs in [t]: [t = pre ++ s ++ post]. *)
Definition occurs_in (s t : string) : Prop :=
  exists pre post, t = pre ++ s ++ post.

(** The substring test of the genre filter: some suffix of the text starts
    with the string, the letters [A]..[Z] compared without regard to case
    as [lower()] folds them, every other character as it is. *)
Fixpoint starts_with_ci (s t : string) : bool :=
  match s, t with
  | EmptyString, _ => true
  | String _ _, EmptyString => false
  | String c s', String d t' =>
      Ascii.eqb (lower_char c) (lower_char d) && starts_with_ci s' t'
  end.

Fixpoint contains_ci (s t : string) : bool :=
  starts_with_ci s t
  || match t with
     | EmptyString => false
     | String _ t' => contains_ci s t'
     end.

(** A string with no NUL character in it. *)
Fixpoint nul_free (s : string) : bool :=
  match s with
  | EmptyString => true
  | String c s' => negb (Ascii.eqb c Ascii.zero) && nul_free s'
  end.


(** No key of the update carries a JSON null. *)
Definition sent_string (f : option (option string)) : bool :=
  match f with
  | Some None => false
  | _ => true
  end.

Definition no_null (u : BookUpdate) : bool :=
  sent_string (bu_title u) && sent_string (bu_genre u)
  && sent_string (bu_isbn u).

(** Replaying a log of requests, each with the credential it carried and
    the clock reading it saw. *)
Definition run (environ : string -> option string)
    (log : list (option string * Z * Request)) (s : Store) : Store :=
  fold_left (fun st ev => fst (app environ (fst (fst ev)) (snd (fst ev)) (snd ev) st))
            log s.

(** A small library used to exercise the statements below: no [AUTH_KEY] in
    the environment, one author, two books, the first one on loan. *)
Definition no_env : string -> option string := fun _ => None.

Definition dev_key : option string := Some "dev-secret-key-12345".

Definition demo_log : list (option string * Z * Request) :=
  [ (dev_key, 100, POST_authors (mkAuthorCreate "A" None));
    (dev_key, 101, POST_books (mkBookCreate "B" "Fiction" "1111111111111" 1));
    (dev_key, 102, POST_books (mkBookCreate "C" "Science" "2222222222222" 1));
    (dev_key, 103, POST_book_loan 1 (mkLoanRecordCreate "John")) ].

Definition demo_book1 : Book := mkBook 1 "B" "Fiction" "1111111111111" 1.
Definition demo_book2 : Book := mkBook 2 "C" "Science" "2222222222222" 1.
Definition demo_loan1 : LoanRecord := mkLoanRecord 1 1 "John" 103 None false.

Definition demo_store : Store :=
  mkStore [mkAuthor 1 "A" None] [demo_book1; demo_book2] [demo_loan1].

(** ** Relationships: [relationship(...)] in [app/models.py]

    A many-to-one side is loaded through the foreign key, a one-to-many side
    by selecting the rows whose foreign key is the parent's id. *)

(** [Book.author] *)
Definition Book_author (s : Store) (b : Book) : option Author :=
  query_author s (book_author_id b).

(** [Author.books] *)
Definition Author_books (s : Store) (a : Author) : list Book :=
  filter (fun b => book_author_id b =? author_id a) (books s).

(** [LoanRecord.book] *)
Definition LoanRecord_book (s : Store) (l : LoanRecord) : option Book :=
  query_book s (loan_book_id l).

(** [Book.loan_records] *)
Definition Book_loan_records (s : Store) (b : Book) : list LoanRecord :=
  filter (fun l => loan_book_id l =? book_id b) (loan_records s).

(** ** Well-formed stores *)

(** The keys [1], [2], ..., [n], in this order. *)
Definition ids_upto (n : nat) : list Z := map Z.of_nat (seq 1 n).

(** What every table of the service satisfies: keys handed out in sequence,
    ISBNs all different, foreign keys that resolve, and a return time on
    exactly the returned loans. *)
Record wf_store (s : Store) : Prop := mk_wf_store {
  wf_author_ids : map author_id (authors s) = ids_upto (List.length (authors s));
  wf_book_ids : map book_id (books s) = ids_upto (List.length (books s));
  wf_loan_ids :
    map loan_id (loan_records s) = ids_upto (List.length (loan_records s));
  wf_isbn : NoDup (map isbn (books s));
  wf_book_author :
    forall b, In b (books s) -> In (book_author_id b) (map author_id (authors s));
  wf_loan_book :
    forall l, In l (loan_records s) ->
              In (loan_book_id l) (map book_id (books s));
  wf_returned_at :
    forall l, In l (loan_records s) ->
              is_returned l = match returned_at l with
                              | Some _ => true
                              | None => false
                              end
}.

(** A number of rows to skip that is no SQLite INTEGER. *)
Definition beyond_int64 : nat := Z.to_nat (2 ^ 63).

(** A library whose only book has a NUL character in its genre, and one
    whose only book has a capital letter outside [A]..[Z] (code point 201)
    in its genre. *)
Definition nul_genre : string := "Science" ++ String Ascii.zero "Fiction".

Definition nul_store : Store :=
  mkStore [mkAuthor 1 "A" None] [mkBook 1 "B" nul_genre "1111111111111" 1] [].

Definition accent_genre : string := String (ascii_of_nat 201) "pop" ++ "ee".

Definition accent_store : Store :=
  mkStore [mkAuthor 1 "A" None]
          [mkBook 1 "B" accent_genre "1111111111111" 1] [].

(** An environment in which the secret is configured as the empty string. *)
Definition empty_secret_env : string -> option string :=
  fun key => if String.eqb key "AUTH_KEY" then Some "" else None.

(** The demo library once John has returned the book. *)
Definition demo_returned : Store :=
  mkStore [mkAuthor 1 "A" None] [demo_book1; demo_book2]
          [mkLoanRecord 1 1 "John" 103 (Some 105) true].

(** ** Proof automation *)

(** Case analysis on the innermost scrutinee of a [match] in a hypothesis. *)
Ltac case_match_in H :=
  match type of H with
  | context [match ?x with _ => _ end] =>
      lazymatch x with
      | context [match _ with _ => _ end] => fail
      | _ => destruct x eqn:?
      end
  end.

(** The same on the goal. *)
Ltac case_match :=
  match goal with
  | |- context [match ?x with _ => _ end] =>
      lazymatch x with
      | context [match _ with _ => _ end] => fail
      | _ => destruct x eqn:?
      end
  end.

(** * Properties *)

Example demo_store_run : run no_env demo_log empty_store = demo_store.
Proof. reflexivity. Qed.

(** The scenario of the specification: the second loan of the book is
    refused while the first is active, and accepted once it is returned. *)
Example loan_return_loan :
  let jane := POST_book_loan 1 (mkLoanRecordCreate "Jane") in
  snd (app no_env dev_key 104 jane demo_store)
  = Raise (HTTPException 400 "Book is already loaned out to John")
  /\ snd (app no_env dev_key 105 (POST_loan_return 1) demo_store)
     = Ok (JSON_loan (mkLoanRecord 1 1 "John" 103 (Some 105) true))
  /\ snd (app no_env dev_key 106 jane
            (fst (app no_env dev_key 105 (POST_loan_return 1) demo_store)))
     = Ok (JSON_loan (mkLoanRecord 2 1 "Jane" 106 None false)).
Proof. repeat split. Qed.

Section Properties.

Variable environ : string -> option string.

(** ** The access gate *)

Lemma verify_api_key_missing :
  verify_api_key environ None
  = Raise (HTTPException HTTP_401_UNAUTHORIZED
             "API Key is missing. Include it in the 'X-API-Key' header.").
Proof. reflexivity. Qed.

Lemma verify_api_key_invalid k :
  k <> AUTH_KEY environ ->
  verify_api_key environ (Some k)
  = Raise (HTTPException HTTP_403_FORBIDDEN "Invalid API Key. Access denied.").
Proof.
  intros Hk. unfold verify_api_key.
  destruct (String.eqb_spec k (AUTH_KEY environ)) as [E | _];
    [contradiction | reflexivity].
Qed.

Lemma verify_api_key_valid :
  verify_api_key environ (Some (AUTH_KEY environ)) = Ok true.
Proof. unfold verify_api_key. now rewrite String.eqb_refl. Qed.

Lemma respond_fst {A} (wrap : A -> Response) r : fst (respond wrap r) = fst r.
Proof. destruct r as [s [a | e]]; reflexivity. Qed.

Lemma respond_raise {A} (wrap : A -> Response) r e :
  snd (respond wrap r) = Raise e -> snd r = Raise e.
Proof. destruct r as [s [a | e']]; simpl; congruence. Qed.

Lemma no_row_cases i d :
  no_row i d = HTTPException HTTP_404_NOT_FOUND d \/ no_row i d = too_large.
Proof. unfold no_row. destruct (sqlite_integer i); auto. Qed.

Lemma offset_limit_raise {A} skip limit (page : A) e :
  offset_limit skip limit page = Raise e -> e = too_large.
Proof.
  unfold offset_limit. destruct (_ && _); [discriminate | congruence].
Qed.

Lemma like_limit_raise {A} limit genre s (r : outcome A) e :
  like_limit limit genre s r = Raise e -> e = too_complex \/ r = Raise e.
Proof.
  unfold like_limit. destruct r as [page | e'].
  - destruct (like_runs limit genre s); [discriminate |]. intros [= <-]. now left.
  - intros [= <-]. now right.
Qed.

(** A handler raises nothing but a 404, a 400, an [IntegrityError], an
    [OperationalError] or the [OverflowError] of the driver. *)
Lemma endpoint_raises now req s e :
  snd (endpoint now req s) = Raise e ->
  (exists d, e = HTTPException HTTP_404_NOT_FOUND d)
  \/ (exists d, e = HTTPException HTTP_400_BAD_REQUEST d)
  \/ (exists d, e = IntegrityError d)
  \/ (exists d, e = OperationalError d)
  \/ (exists d, e = OverflowError d).
Proof.
  assert (N : forall i d,
            no_row i d = e ->
            (exists d, e = HTTPException HTTP_404_NOT_FOUND d)
            \/ (exists d, e = HTTPException HTTP_400_BAD_REQUEST d)
            \/ (exists d, e = IntegrityError d)
            \/ (exists d, e = OperationalError d)
            \/ (exists d, e = OverflowError d)).
  { intros i d <-. destruct (no_row_cases i d) as [-> | ->];
      unfold too_large; eauto 7. }
  assert (O : forall (A : Type) sk li (page : A),
            offset_limit sk li page = Raise e ->
            (exists d, e = HTTPException HTTP_404_NOT_FOUND d)
            \/ (exists d, e = HTTPException HTTP_400_BAD_REQUEST d)
            \/ (exists d, e = IntegrityError d)
            \/ (exists d, e = OperationalError d)
            \/ (exists d, e = OverflowError d)).
  { intros A sk li page H. apply offset_limit_raise in H.
    do 4 right. now exists "Python int too large to convert to SQLite INTEGER". }
  destruct req as [ | a | sk li | i | b | sk li g | i | i u | i ld | i | sk li ao ];
    cbn [endpoint snd]; intros H; try discriminate;
    try exact (O _ _ _ _ H);
    try (apply like_limit_raise in H; destruct H as [H | H];
         [do 3 right; left; now exists "LIKE or GLOB pattern too complex"
         | exact (O _ _ _ _ H)]);
    apply respond_raise in H; cbn [snd] in H.
  - unfold get_author in H. destruct (query_author s i); [discriminate |].
    injection H as H. exact (N _ _ H).
  - unfold create_book in H.
    destruct (query_author s _);
      [destruct (query_book_by_isbn s _); inversion H; eauto |].
    cbn [snd] in H. injection H as H. exact (N _ _ H).
  - unfold get_book in H. destruct (query_book s i); [discriminate |].
    injection H as H. exact (N _ _ H).
  - unfold update_book in H.
    destruct (query_book s i) as [bk |];
      [| cbn [snd] in H; injection H as H; exact (N _ _ H)].
    destruct (existing_isbn s bk (bu_isbn u)); [inversion H; eauto |].
    repeat case_match_in H; simpl in H; inversion H; unfold not_null; eauto 7.
  - unfold loan_book in H.
    destruct (query_book s i);
      [destruct (query_active_loan s _); inversion H; eauto |].
    cbn [snd] in H. injection H as H. exact (N _ _ H).
  - unfold return_book in H.
    destruct (query_loan s i) as [l |];
      [destruct (is_returned l); inversion H; eauto |].
    cbn [snd] in H. injection H as H. exact (N _ _ H).
Qed.

Lemma app_mutating x_api_key now req s :
  mutating req = true ->
  app environ x_api_key now req s
  = Depends_verify_api_key environ x_api_key (endpoint now req) s.
Proof. destruct req; simpl; intros H; try discriminate; reflexivity. Qed.

Lemma app_read x_api_key now req s :
  mutating req = false -> app environ x_api_key now req s = endpoint now req s.
Proof. destruct req; simpl; intros H; try discriminate; reflexivity. Qed.

Lemma endpoint_never_401_403 now req s :
  ~ raises (snd (endpoint now req s)) Unauthenticated
  /\ ~ raises (snd (endpoint now req s)) Forbidden.
Proof.
  split; intros [d H]; apply endpoint_raises in H;
    destruct H as [[d' H] | [[d' H] | [[d' H] | [[d' H] | [d' H]]]]];
    discriminate.
Qed.

Lemma api_key_header_value k : k <> "" -> api_key_header (Some k) = Some k.
Proof. destruct k; [congruence | reflexivity]. Qed.

(** C9 (amended). On each of the five mutating routes, a request without
    [X-API-Key] header or with an empty one gets the 401 of
    [verify_api_key], a request whose header is not empty and is not the
    configured secret gets its 403, and in both cases the store is left
    alone; a request whose header is the secret, the secret not being
    empty, is answered by the handler.  A read route (the listings, the two
    lookups by id and the health probe) is answered by its handler whatever
    the header, never with a 401 or a 403, and leaves the store as it was:
    the probe always returns its payload, a lookup returns the row whenever
    it exists, and a listing ends with the [OverflowError] of the driver
    when [skip] or [limit] is not an SQLite INTEGER and returns its page
    when they are, unless SQLite refuses the pattern made of the genre
    string for its length. *)
Theorem access_gate x_api_key now req s :
  (mutating req = true ->
     (x_api_key = None \/ x_api_key = Some "" ->
        app environ x_api_key now req s
        = (s, Raise (HTTPException HTTP_401_UNAUTHORIZED
                       "API Key is missing. Include it in the 'X-API-Key' header.")))
     /\ (forall k, x_api_key = Some k -> k <> "" -> k <> AUTH_KEY environ ->
           app environ x_api_key now req s
           = (s, Raise (HTTPException HTTP_403_FORBIDDEN
                          "Invalid API Key. Access denied.")))
     /\ (x_api_key = Some (AUTH_KEY environ) -> AUTH_KEY environ <> "" ->
           app environ x_api_key now req s = endpoint now req s))
  /\ (mutating req = false ->
        app environ x_api_key now req s = endpoint now req s
        /\ fst (endpoint now req s) = s
        /\ ~ raises (snd (endpoint now req s)) Unauthenticated
        /\ ~ raises (snd (endpoint now req s)) Forbidden
        /\ match req with
            | GET_health =>
                snd (endpoint now req s) = Ok (JSON_health "healthy" "library-api")
            | GET_author i =>
                forall a, query_author s i = Some a ->
                          snd (endpoint now req s) = Ok (JSON_author a)
            | GET_book i =>
                forall b, query_book s i = Some b ->
                          snd (endpoint now req s) = Ok (JSON_book b)
            | GET_authors skip limit =>
                snd (endpoint now req s)
                = if sqlite_integer (Z.of_nat skip)
                     && sqlite_integer (Z.of_nat limit)
                  then Ok (JSON_authors (list_authors skip limit s))
                  else Raise too_large
            | GET_books skip limit genre =>
                snd (endpoint now req s)
                = if sqlite_integer (Z.of_nat skip)
                     && sqlite_integer (Z.of_nat limit)
                  then if like_runs limit genre s
                       then Ok (JSON_books (list_books skip limit genre s))
                       else Raise too_complex
                  else Raise too_large
            | GET_loans skip limit active_only =>
                snd (endpoint now req s)
                = if sqlite_integer (Z.of_nat skip)
                     && sqlite_integer (Z.of_nat limit)
                  then Ok (JSON_loans (list_loans skip limit active_only s))
                  else Raise too_large
            | _ => True
            end).
Proof.
  split; intros Hm.
  - rewrite (app_mutating _ _ _ _ Hm). unfold Depends_verify_api_key.
    repeat split.
    + intros [-> | ->]; reflexivity.
    + intros k -> Hne Hk.
      now rewrite (api_key_header_value k Hne), (verify_api_key_invalid k Hk).
    + intros -> Hne.
      now rewrite (api_key_header_value _ Hne), verify_api_key_valid.
  - split; [now apply app_read |].
    destruct (endpoint_never_401_403 now req s) as [H1 H3].
    repeat split; try assumption.
    + destruct req; try discriminate; try reflexivity; cbn [endpoint];
        now rewrite respond_fst.
    + destruct req; try discriminate; cbn [endpoint snd]; try reflexivity.
      * intros a Ha. unfold get_author. now rewrite Ha.
      * unfold like_limit, offset_limit. now destruct (_ && _).
      * intros b Hb. unfold get_book. now rewrite Hb.
Qed.

(** C10 (amended). A request to a mutating route whose [X-API-Key] header is
    the empty string gets the 401, like a request without the header: the
    scheme hands [None] to [verify_api_key] in both cases, and these are the
    only requests that get the 401.  Every header with a non-empty value
    other than the secret gets the 403.  The 403 for the empty string is
    what [verify_api_key] itself would raise, were it handed the empty
    string while the secret is not empty. *)
Theorem empty_credential_unauthenticated now req s :
  mutating req = true ->
  app environ (Some "") now req s
  = (s, Raise (HTTPException HTTP_401_UNAUTHORIZED
                 "API Key is missing. Include it in the 'X-API-Key' header."))
  /\ (forall x_api_key,
        raises (snd (app environ x_api_key now req s)) Unauthenticated
        <-> x_api_key = None \/ x_api_key = Some "")
  /\ (forall k, k <> "" -> k <> AUTH_KEY environ ->
        app environ (Some k) now req s
        = (s, Raise (HTTPException HTTP_403_FORBIDDEN
                       "Invalid API Key. Access denied.")))
  /\ (AUTH_KEY environ <> "" ->
        verify_api_key environ (Some "")
        = Raise (HTTPException HTTP_403_FORBIDDEN
                   "Invalid API Key. Access denied.")).
Proof.
  intros Hm.
  assert (Hbad : forall k, k <> "" -> k <> AUTH_KEY environ ->
            app environ (Some k) now req s
            = (s, Raise (HTTPException HTTP_403_FORBIDDEN
                           "Invalid API Key. Access denied."))).
  { intros k Hne Hk. rewrite (app_mutating _ _ _ _ Hm).
    unfold Depends_verify_api_key.
    now rewrite (api_key_header_value k Hne), (verify_api_key_invalid k Hk). }
  assert (Hempty : app environ (Some "") now req s
            = (s, Raise (HTTPException HTTP_401_UNAUTHORIZED
                 "API Key is missing. Include it in the 'X-API-Key' header."))).
  { now rewrite (app_mutating _ _ _ _ Hm). }
  split; [exact Hempty |]. split; [| split; [exact Hbad |]].
  - intros [k |]; split; intros H; auto.
    + destruct (string_dec k "") as [-> | Hne]; [now right | exfalso].
      destruct (string_dec k (AUTH_KEY environ)) as [-> | Hk].
      * rewrite (app_mutating _ _ _ _ Hm) in H.
        unfold Depends_verify_api_key in H.
        rewrite (api_key_header_value _ Hne), verify_api_key_valid in H.
        now apply (proj1 (endpoint_never_401_403 now req s)).
      * rewrite (Hbad k Hne Hk) in H. destruct H as [d H]. discriminate.
    + destruct H as [H | [= ->]]; [discriminate |].
      rewrite Hempty. eexists. reflexivity.
    + rewrite (app_mutating _ _ _ _ Hm). eexists. reflexivity.
  - intros Hsecret. apply verify_api_key_invalid. congruence.
Qed.

(** ** Queries on the tables *)

Lemma find_absent {A} (f : A -> bool) (l : list A) :
  (forall x, In x l -> f x = false) -> find f l = None.
Proof.
  induction l as [| x l IH]; intros H; simpl; [reflexivity |].
  rewrite (H x (or_introl eq_refl)). apply IH. intros y Hy. apply H. now right.
Qed.

Lemma find_present {A} (f : A -> bool) (l : list A) x :
  In x l -> f x = true -> exists y, find f l = Some y.
Proof.
  intros Hin Hf. destruct (find f l) as [y |] eqn:E; [eauto |].
  rewrite (find_none f l E x Hin) in Hf. discriminate.
Qed.

Lemma filter_find_none {A} (f : A -> bool) (l : list A) :
  find f l = None -> filter f l = [].
Proof.
  induction l as [| x l IH]; simpl; [reflexivity |].
  destruct (f x); [discriminate | exact IH].
Qed.

Lemma filter_at_most_one {A} (f : A -> bool) (l : list A) x y :
  (List.length (filter f l) <= 1)%nat ->
  In x l -> f x = true -> In y l -> f y = true -> x = y.
Proof.
  intros Hlen Hx Fx Hy Fy.
  assert (Ix : In x (filter f l)) by (apply filter_In; auto).
  assert (Iy : In y (filter f l)) by (apply filter_In; auto).
  destruct (filter f l) as [| a [| b r]]; simpl in *; try lia; intuition congruence.
Qed.

Lemma occurs_in_suffix (pre s : string) : occurs_in s (pre ++ s).
Proof.
  exists pre, "". f_equal. induction s as [| c s IH]; simpl; [reflexivity |].
  now rewrite <- IH.
Qed.

(** ** C6: precedence of the two checks of [create_book] *)


(** ** C2: a book on loan cannot be loaned *)

(** C2. When a book with the given id exists and a loan row [l] of that
    book is unreturned, [loan_book] raises a 400 whose message ends with the
    borrower name of an unreturned loan row of that book (the first one),
    and the store is the one it started from, so no loan row is added.
    Whenever the book has no more than one unreturned loan row, which is the
    case in every store the service can reach, the borrower named is that
    of [l]. *)
Theorem loan_book_rejects_active_loan now bid loan_data s b l :
  In b (books s) -> book_id b = bid ->
  In l (loan_records s) -> loan_book_id l = bid -> is_returned l = false ->
  exists active,
    In active (loan_records s)
    /\ loan_book_id active = bid /\ is_returned active = false
    /\ loan_book now bid loan_data s
       = (s, Raise (HTTPException HTTP_400_BAD_REQUEST
                      ("Book is already loaned out to "
                       ++ borrower_name active)))
    /\ raises (snd (loan_book now bid loan_data s)) Conflict
    /\ occurs_in (borrower_name active)
                 ("Book is already loaned out to " ++ borrower_name active)
    /\ ((active_loan_count bid s <= 1)%nat -> active = l).
Proof.
  intros Hb Hbid Hl Hlb Hret.
  assert (Fl : is_active_for bid l = true).
  { unfold is_active_for. rewrite Hret, Hlb, Z.eqb_refl. reflexivity. }
  destruct (find_present (fun x => book_id x =? bid) (books s) b Hb) as [b' Eb].
  { now apply Z.eqb_eq. }
  destruct (find_present (is_active_for bid) (loan_records s) l Hl Fl)
    as [active Ea].
  destruct (find_some _ _ Ea) as [Ha Fa].
  unfold is_active_for in Fa. apply andb_true_iff in Fa. destruct Fa as [Fa1 Fa2].
  apply Z.eqb_eq in Fa1. apply negb_true_iff in Fa2.
  exists active. unfold loan_book, query_book, query_active_loan.
  rewrite Eb, Ea. repeat split; try assumption.
  - eexists. reflexivity.
  - apply occurs_in_suffix.
  - intros Hone. apply (filter_at_most_one (is_active_for bid) (loan_records s));
      try assumption.
    unfold is_active_for. rewrite Fa1, Fa2, Z.eqb_refl. reflexivity.
Qed.


(** ** C3: returning a loan *)

Lemma find_update_loans pk now rows l :
  find (fun x => loan_id x =? pk) rows = Some l ->
  find (fun x => loan_id x =? pk) (update_loans_where_id pk now rows)
  = Some (mark_returned now l).
Proof.
  induction rows as [| x rows IH]; simpl; [discriminate |].
  destruct (loan_id x =? pk) eqn:E; simpl; rewrite E.
  - intros [= ->]. reflexivity.
  - exact IH.
Qed.

Lemma nth_error_update_loans pk now rows i l :
  nth_error rows i = Some l ->
  nth_error (update_loans_where_id pk now rows) i
  = Some (if loan_id l =? pk then mark_returned now l else l).
Proof.
  intros H. unfold update_loans_where_id.
  now rewrite nth_error_map, H.
Qed.

(** What a request can do to the loan table: nothing, add one row at the
    end, or run the update of [return_book]. *)
Lemma endpoint_loan_records now req s :
  let s' := fst (endpoint now req s) in
  loan_records s' = loan_records s
  \/ (exists bid borrower,
        query_active_loan s bid = None
        /\ loan_records s'
           = (loan_records s
              ++ [mkLoanRecord (next_id (map loan_id (loan_records s)))
                               bid borrower now None false])%list)
  \/ (exists pk, loan_records s' = update_loans_where_id pk now (loan_records s)).
Proof.
  destruct req as [ | a | sk li | i | b | sk li g | i | i u | i ld | i | sk li ao ];
    cbn [endpoint]; try rewrite respond_fst; cbn [fst]; auto.
  - unfold create_book. repeat case_match; auto.
  - unfold update_book. repeat case_match; auto.
  - unfold loan_book. destruct (query_book s i); auto.
    destruct (query_active_loan s i) eqn:E; auto.
    right; left. exists i, (lc_borrower_name ld). auto.
  - unfold return_book. destruct (query_loan s i) as [l |]; auto.
    destruct (is_returned l); auto. right; right. eexists. reflexivity.
Qed.

Lemma app_store x_api_key now req s :
  fst (app environ x_api_key now req s) = s
  \/ fst (app environ x_api_key now req s) = fst (endpoint now req s).
Proof.
  destruct (mutating req) eqn:Hm.
  - rewrite (app_mutating _ _ _ _ Hm). unfold Depends_verify_api_key.
    destruct (verify_api_key environ (api_key_header x_api_key)); auto.
  - rewrite (app_read _ _ _ _ Hm). auto.
Qed.

(** C3. When [loan_id] refers to a loan row with [is_returned = false],
    [return_book] succeeds: the row it returns, which is also the row the id
    refers to afterwards, has [is_returned = true] and [returned_at] set to
    the current time, its other columns being the old ones.  A second
    [return_book] on the same id then raises the 400 and leaves the store,
    hence [returned_at] and every other column of the row, as the first call
    left it.  Moreover no request ever takes a loan row with
    [is_returned = true] back to [is_returned = false]: after any request
    the row in the same position is still returned. *)
Theorem return_book_one_way now now' lid s l :
  query_loan s lid = Some l -> is_returned l = false ->
  let s1 := fst (return_book now lid s) in
  let l1 := mkLoanRecord (loan_id l) (loan_book_id l) (borrower_name l)
                         (loaned_at l) (Some now) true in
  snd (return_book now lid s) = Ok l1
  /\ query_loan s1 lid = Some l1
  /\ return_book now' lid s1
     = (s1, Raise (HTTPException HTTP_400_BAD_REQUEST
                     "This book has already been returned"))
  /\ raises (snd (return_book now' lid s1)) Conflict
  /\ (forall x_api_key t req st i r,
        nth_error (loan_records st) i = Some r -> is_returned r = true ->
        exists r',
          nth_error (loan_records (fst (app environ x_api_key t req st))) i
          = Some r'
          /\ is_returned r' = true /\ loan_id r' = loan_id r).
Proof.
  intros Hq Hret s1 l1.
  assert (Hid : loan_id l = lid).
  { apply find_some in Hq. now apply Z.eqb_eq. }
  assert (E1 : return_book now lid s
               = (mkStore (authors s) (books s)
                    (update_loans_where_id lid now (loan_records s)), Ok l1)).
  { unfold return_book. rewrite Hq, Hret, Hid. reflexivity. }
  assert (Q1 : query_loan s1 lid = Some l1).
  { subst s1. rewrite E1. unfold query_loan. cbn [fst loan_records].
    now apply find_update_loans. }
  assert (E2 : return_book now' lid s1
               = (s1, Raise (HTTPException HTTP_400_BAD_REQUEST
                               "This book has already been returned"))).
  { unfold return_book. rewrite Q1. reflexivity. }
  repeat split.
  - now rewrite E1.
  - exact Q1.
  - exact E2.
  - rewrite E2. eexists. reflexivity.
  - intros x_api_key t req st i r Hi Hr.
    destruct (app_store x_api_key t req st) as [-> | ->]; [eauto |].
    destruct (endpoint_loan_records t req st) as [-> | [(b & w & _ & ->) | [pk ->]]].
    + eauto.
    + exists r. rewrite nth_error_app1; [auto |].
      apply nth_error_Some. congruence.
    + rewrite (nth_error_update_loans pk t _ i r Hi).
      destruct (loan_id r =? pk); eauto.
Qed.


(** ** C1: at most one active loan per book *)

Lemma mark_returned_inactive bid now l :
  is_active_for bid (mark_returned now l) = false.
Proof. unfold is_active_for. simpl. apply andb_false_r. Qed.

Lemma active_after_update bid pk now rows :
  (List.length (filter (is_active_for bid) (update_loans_where_id pk now rows))
   <= List.length (filter (is_active_for bid) rows))%nat.
Proof.
  induction rows as [| x rows IH]; simpl; [lia |].
  destruct (loan_id x =? pk).
  - rewrite mark_returned_inactive. destruct (is_active_for bid x); simpl; lia.
  - destruct (is_active_for bid x); simpl; lia.
Qed.

Lemma active_after_insert bid bid' rows r :
  find (is_active_for bid') rows = None ->
  loan_book_id r = bid' ->
  (List.length (filter (is_active_for bid) rows) <= 1)%nat ->
  (List.length (filter (is_active_for bid) (rows ++ [r])) <= 1)%nat.
Proof.
  intros Hnone Hr Hle. rewrite filter_app, length_app. simpl.
  destruct (is_active_for bid r) eqn:E; simpl; [| lia].
  unfold is_active_for in E. apply andb_true_iff in E. destruct E as [E _].
  apply Z.eqb_eq in E. assert (Hbid : bid' = bid) by congruence.
  rewrite Hbid in Hnone. rewrite (filter_find_none _ _ Hnone). simpl. lia.
Qed.

Lemma app_keeps_one_active_loan x_api_key now req s :
  one_active_loan_per_book s ->
  one_active_loan_per_book (fst (app environ x_api_key now req s)).
Proof.
  intros Hinv bid. specialize (Hinv bid).
  unfold active_loan_count, active_loans in *.
  destruct (app_store x_api_key now req s) as [-> | ->]; [exact Hinv |].
  destruct (endpoint_loan_records now req s)
    as [-> | [(b & w & Hnone & ->) | [pk ->]]].
  - exact Hinv.
  - now apply (active_after_insert bid b).
  - etransitivity; [apply active_after_update | exact Hinv].
Qed.

Lemma reachable_run log s :
  reachable environ s -> reachable environ (run environ log s).
Proof.
  revert s. induction log as [| [[k t] req] log IH]; intros s Hs; simpl.
  - exact Hs.
  - apply IH. now constructor.
Qed.

(** C1. In every store reached from the empty store by a sequence of
    requests (any route, any credential, any clock reading, successful or
    not), every book of the store has at most one loan row with its id and
    [is_returned = false]. *)
Theorem at_most_one_active_loan s B :
  reachable environ s -> In B (books s) ->
  (active_loan_count (book_id B) s <= 1)%nat.
Proof.
  intros Hs _. generalize (book_id B).
  change (one_active_loan_per_book s).
  induction Hs as [| x_api_key now req s _ IH].
  - intros bid. unfold active_loan_count. simpl. lia.
  - apply app_keeps_one_active_loan. exact IH.
Qed.

(** ** C4: a request that fails has no effect *)

Lemma endpoint_failure_store now req s e :
  snd (endpoint now req s) = Raise e -> fst (endpoint now req s) = s.
Proof.
  destruct req as [ | a | sk li | i | b | sk li g | i | i u | i ld | i | sk li ao ];
    cbn [endpoint]; try rewrite respond_fst; cbn [fst]; auto;
    intros H; apply respond_raise in H; revert H.
  - discriminate.
  - unfold create_book. repeat case_match; simpl; auto; discriminate.
  - unfold update_book. repeat case_match; simpl; auto; discriminate.
  - unfold loan_book. repeat case_match; simpl; auto; discriminate.
  - unfold return_book. repeat case_match; simpl; auto; discriminate.
Qed.

(** C4. Whatever the route, the credential and the store, a request that
    ends with an exception (the 401 and 403 of the access gate, a 404, a 400
    or a failed commit) leaves the store exactly as it was.  In particular
    [create_book] with an ISBN that a book of the store already has raises,
    changes nothing, so the number of books is the same, and what it raises
    is the 400 naming the ISBN as soon as the author exists. *)
Theorem failed_request_has_no_effect :
  (forall x_api_key now req s e,
     snd (app environ x_api_key now req s) = Raise e ->
     fst (app environ x_api_key now req s) = s)
  /\ (forall book s b,
        In b (books s) -> isbn b = bc_isbn book ->
        fst (create_book book s) = s
        /\ List.length (books (fst (create_book book s)))
           = List.length (books s)
        /\ (exists e, snd (create_book book s) = Raise e)
        /\ (forall a, In a (authors s) -> author_id a = bc_author_id book ->
              snd (create_book book s)
              = Raise (HTTPException HTTP_400_BAD_REQUEST
                         ("Book with ISBN " ++ bc_isbn book
                          ++ " already exists"))
              /\ raises (snd (create_book book s)) Conflict)).
Proof.
  split.
  - intros x_api_key now req s e H.
    destruct (mutating req) eqn:Hm.
    + rewrite (app_mutating _ _ _ _ Hm) in *. unfold Depends_verify_api_key in *.
      destruct (verify_api_key environ (api_key_header x_api_key));
        [| reflexivity].
      now apply endpoint_failure_store with (e := e).
    + rewrite (app_read _ _ _ _ Hm) in *.
      now apply endpoint_failure_store with (e := e).
  - intros book s b Hb Hisbn.
    destruct (find_present (fun x => String.eqb (isbn x) (bc_isbn book))
                (books s) b Hb) as [b' Eb].
    { now apply String.eqb_eq. }
    assert (Hs : fst (create_book book s) = s).
    { unfold create_book, query_book_by_isbn. rewrite Eb.
      destruct (query_author s (bc_author_id book)); reflexivity. }
    split; [exact Hs |]. split; [now rewrite Hs |]. split.
    + unfold create_book, query_book_by_isbn. rewrite Eb.
      destruct (query_author s (bc_author_id book)); eexists; reflexivity.
    + intros a Ha Hid.
      destruct (find_present (fun x => author_id x =? bc_author_id book)
                  (authors s) a Ha) as [a' Ea].
      { now apply Z.eqb_eq. }
      unfold create_book, query_author, query_book_by_isbn. rewrite Ea, Eb.
      split; [reflexivity | eexists; reflexivity].
Qed.


(** ** C5 and C7: [update_book] *)

Lemma store_eta s : mkStore (authors s) (books s) (loan_records s) = s.
Proof. destruct s; reflexivity. Qed.

Lemma book_eta b :
  mkBook (book_id b) (title b) (genre b) (isbn b) (book_author_id b) = b.
Proof. destruct b; reflexivity. Qed.

Lemma update_books_nothing_sent pk rows :
  update_books_where_id pk (mkBookUpdate None None None) rows = rows.
Proof.
  unfold update_books_where_id. induction rows as [| x rows IH];
    [reflexivity |].
  cbn [map]. rewrite IH.
  destruct (book_id x =? pk); [| reflexivity].
  cbn [set_column bu_title bu_genre bu_isbn]. now rewrite book_eta.
Qed.

Lemma find_update_books pk u rows b :
  find (fun x => book_id x =? pk) rows = Some b ->
  find (fun x => book_id x =? pk) (update_books_where_id pk u rows)
  = Some (mkBook (book_id b)
                 (set_column (title b) (bu_title u))
                 (set_column (genre b) (bu_genre u))
                 (set_column (isbn b) (bu_isbn u))
                 (book_author_id b)).
Proof.
  induction rows as [| x rows IH]; simpl; [discriminate |].
  destruct (book_id x =? pk) eqn:E; simpl; rewrite E.
  - intros [= ->]. reflexivity.
  - exact IH.
Qed.

Lemma setattr_sent_string current sent :
  sent_string sent = true ->
  setattr current sent = Some (set_column current sent).
Proof. destruct sent as [[v |] |]; simpl; intros H; congruence. Qed.

(** The ISBN check lets the update through exactly when no book has an ISBN
    that is sent and differs from the current one. *)
Lemma existing_isbn_none s b sent :
  (forall v, sent = Some (Some v) -> v <> isbn b ->
             forall x, In x (books s) -> isbn x <> v) ->
  existing_isbn s b sent = None.
Proof.
  intros H. destruct sent as [[v |] |]; simpl; try reflexivity.
  destruct (String.eqb_spec v (isbn b)) as [-> | Hne]; simpl; [reflexivity |].
  unfold query_book_by_isbn. rewrite find_absent; [reflexivity |].
  intros x Hx. apply String.eqb_neq. now apply (H v).
Qed.

Lemma update_book_applied bid u s b :
  query_book s bid = Some b ->
  existing_isbn s b (bu_isbn u) = None ->
  no_null u = true ->
  update_book bid u s
  = (mkStore (authors s) (update_books_where_id (book_id b) u (books s))
             (loan_records s),
     Ok (mkBook (book_id b)
                (set_column (title b) (bu_title u))
                (set_column (genre b) (bu_genre u))
                (set_column (isbn b) (bu_isbn u))
                (book_author_id b))).
Proof.
  intros Hq He Hn. unfold no_null in Hn.
  apply andb_true_iff in Hn. destruct Hn as [Hn Hi].
  apply andb_true_iff in Hn. destruct Hn as [Ht Hg].
  unfold update_book. rewrite Hq, He.
  now rewrite !setattr_sent_string by assumption.
Qed.

Lemma update_book_ok_inv bid u s b b' :
  query_book s bid = Some b ->
  snd (update_book bid u s) = Ok b' ->
  existing_isbn s b (bu_isbn u) = None /\ no_null u = true.
Proof.
  intros Hq. unfold update_book, no_null. rewrite Hq.
  destruct (existing_isbn s b (bu_isbn u)); [discriminate |].
  destruct (bu_title u) as [[t |] |], (bu_genre u) as [[g |] |],
    (bu_isbn u) as [[i |] |]; simpl; intros H; try discriminate H; auto.
Qed.

(** C5. On an existing book, whatever the update and its outcome, the row
    the id refers to afterwards has the old value in every field whose key
    was omitted, and the old id and author.  Whenever the update returns a
    book, that book is the row the id refers to afterwards and it has, for
    each of [title], [genre] and [isbn], the value sent when the key was
    sent and the old value when the key was omitted; the author and loan
    tables are untouched and so is every book row with another id.  The
    update does return a book when it passes the ISBN check and every key
    sent carries a string.  With no key at all it returns the book as it
    was and leaves the whole store as it was. *)
Theorem update_book_partial bid u s b :
  query_book s bid = Some b ->
  (exists b1,
     query_book (fst (update_book bid u s)) bid = Some b1
     /\ (bu_title u = None -> title b1 = title b)
     /\ (bu_genre u = None -> genre b1 = genre b)
     /\ (bu_isbn u = None -> isbn b1 = isbn b)
     /\ book_id b1 = book_id b
     /\ book_author_id b1 = book_author_id b)
  /\ (forall b',
        snd (update_book bid u s) = Ok b' ->
        query_book (fst (update_book bid u s)) bid = Some b'
        /\ (forall v, bu_title u = Some (Some v) -> title b' = v)
        /\ (bu_title u = None -> title b' = title b)
        /\ (forall v, bu_genre u = Some (Some v) -> genre b' = v)
        /\ (bu_genre u = None -> genre b' = genre b)
        /\ (forall v, bu_isbn u = Some (Some v) -> isbn b' = v)
        /\ (bu_isbn u = None -> isbn b' = isbn b)
        /\ book_id b' = book_id b
        /\ book_author_id b' = book_author_id b
        /\ authors (fst (update_book bid u s)) = authors s
        /\ loan_records (fst (update_book bid u s)) = loan_records s
        /\ (forall i x, nth_error (books s) i = Some x -> book_id x <> bid ->
              nth_error (books (fst (update_book bid u s))) i = Some x))
  /\ ((forall v, bu_isbn u = Some (Some v) -> v <> isbn b ->
                 forall x, In x (books s) -> isbn x <> v) ->
      no_null u = true ->
      exists b', snd (update_book bid u s) = Ok b')
  /\ update_book bid (mkBookUpdate None None None) s = (s, Ok b).
Proof.
  intros Hq.
  assert (Hid : book_id b = bid).
  { apply find_some in Hq. now apply Z.eqb_eq. }
  subst bid. split; [| split; [| split]].
  - unfold update_book. rewrite Hq.
    destruct (existing_isbn s b (bu_isbn u)); [exists b; cbn [fst]; auto 6 |].
    destruct (setattr (title b) (bu_title u)) as [t |];
      [| exists b; cbn [fst]; auto 6].
    destruct (setattr (genre b) (bu_genre u)) as [g |];
      [| exists b; cbn [fst]; auto 6].
    destruct (setattr (isbn b) (bu_isbn u)) as [i |];
      [| exists b; cbn [fst]; auto 6].
    eexists. cbn [fst]. split.
    { unfold query_book. cbn [books]. apply find_update_books. exact Hq. }
    cbn [title genre isbn book_id book_author_id].
    repeat split; intros ->; reflexivity.
  - intros b' Hok.
    destruct (update_book_ok_inv _ u s b b' Hq Hok) as [He Hn].
    rewrite (update_book_applied _ u s b Hq He Hn) in *.
    cbn [fst snd authors books loan_records] in *.
    injection Hok as <-. split.
    { unfold query_book. cbn [books]. now apply find_update_books. }
    cbn [title genre isbn book_id book_author_id].
    repeat split; try (intros v ->; reflexivity); try (intros ->; reflexivity).
    intros i x Hx Hne. unfold update_books_where_id.
    rewrite nth_error_map, Hx. simpl.
    destruct (Z.eqb_spec (book_id x) (book_id b)); [congruence | reflexivity].
  - intros Hfree Hn.
    rewrite (update_book_applied _ u s b Hq (existing_isbn_none s b _ Hfree) Hn).
    eexists. reflexivity.
  - rewrite (update_book_applied _ (mkBookUpdate None None None) s b Hq
               eq_refl eq_refl).
    cbn [set_column bu_title bu_genre bu_isbn].
    now rewrite update_books_nothing_sent, store_eta, book_eta.
Qed.

(** The ISBN check of [update_book].  On an existing book, when the update
    sends an ISBN [v]: if [v] is not the book's current ISBN and some book
    of the store has ISBN [v], the update raises the 400 whose message
    contains [v] and the store is left alone; if [v] is the book's current
    ISBN, no 400 is raised, and the update succeeds provided the title and
    the genre, when sent, carry a string: the book returned keeps its ISBN
    and is the row the id refers to afterwards. *)
Lemma update_book_isbn_check bid u s b v :
  query_book s bid = Some b ->
  bu_isbn u = Some (Some v) ->
  (v <> isbn b -> (exists x, In x (books s) /\ isbn x = v) ->
     update_book bid u s
     = (s, Raise (HTTPException HTTP_400_BAD_REQUEST
                    ("Book with ISBN " ++ v ++ " already exists")))
     /\ raises (snd (update_book bid u s)) Conflict
     /\ occurs_in v ("Book with ISBN " ++ v ++ " already exists"))
  /\ (v = isbn b ->
        ~ raises (snd (update_book bid u s)) Conflict
        /\ (sent_string (bu_title u) = true ->
            sent_string (bu_genre u) = true ->
            exists b',
              snd (update_book bid u s) = Ok b'
              /\ isbn b' = isbn b
              /\ query_book (fst (update_book bid u s)) bid = Some b')).
Proof.
  intros Hq Hv. split.
  - intros Hne [x [Hx Hxv]].
    destruct (find_present (fun y => String.eqb (isbn y) v) (books s) x Hx)
      as [y Ey].
    { now apply String.eqb_eq. }
    assert (E : update_book bid u s
                = (s, Raise (HTTPException HTTP_400_BAD_REQUEST
                               ("Book with ISBN " ++ v ++ " already exists")))).
    { unfold update_book. rewrite Hq, Hv. simpl.
      apply String.eqb_neq in Hne. rewrite Hne. simpl.
      unfold query_book_by_isbn. now rewrite Ey. }
    rewrite E. repeat split.
    + eexists. reflexivity.
    + exists "Book with ISBN ", " already exists". reflexivity.
  - intros ->.
    assert (He : existing_isbn s b (bu_isbn u) = None).
    { rewrite Hv. simpl. now rewrite String.eqb_refl. }
    split.
    + intros [d H]. unfold update_book in H. rewrite Hq, He in H.
      repeat case_match_in H; discriminate.
    + intros Ht Hg.
      assert (Hn : no_null u = true).
      { unfold no_null. now rewrite Ht, Hg, Hv. }
      assert (Hid : book_id b = bid).
      { apply find_some in Hq. now apply Z.eqb_eq. }
      subst bid.
      rewrite (update_book_applied _ u s b Hq He Hn).
      eexists. cbn [fst snd books]. split; [reflexivity |]. split.
      * rewrite Hv. reflexivity.
      * unfold query_book. cbn [books]. now apply find_update_books.
Qed.

(** The update of a field that [update_data] holds with the value [None]:
    the ISBN check passes, [setattr] puts [None] on the object and the
    commit is refused, whatever else the update sends. *)
Lemma update_book_null_title bid g i s b :
  query_book s bid = Some b ->
  existing_isbn s b i = None ->
  update_book bid (mkBookUpdate (Some None) g i) s
  = (s, Raise (not_null "books.title")).
Proof.
  intros Hq He. unfold update_book. rewrite Hq. cbn [bu_isbn bu_title].
  rewrite He. reflexivity.
Qed.

(** ** C8: the genre filter of [list_books] *)



Lemma lower_char_nul c :
  Ascii.eqb (lower_char c) Ascii.zero = Ascii.eqb c Ascii.zero.
Proof. destruct c as [[] [] [] [] [] [] [] []]; reflexivity. Qed.

Lemma lower_char_width c :
  (nat_of_ascii (lower_char c) <? 128)%nat = (nat_of_ascii c <? 128)%nat.
Proof. destruct c as [[] [] [] [] [] [] [] []]; reflexivity. Qed.

Lemma lower_app a b : lower (a ++ b) = lower a ++ lower b.
Proof. induction a as [| c a IH]; simpl; [reflexivity | now rewrite IH]. Qed.

Lemma until_nul_lower s : until_nul (lower s) = lower (until_nul s).
Proof.
  induction s as [| c s IH]; cbn [lower until_nul]; [reflexivity |].
  rewrite lower_char_nul. destruct (Ascii.eqb c Ascii.zero); [reflexivity |].
  cbn [lower]. now rewrite IH.
Qed.

Lemma until_nul_free g : nul_free g = true -> until_nul g = g.
Proof.
  induction g as [| c g IH]; cbn [nul_free until_nul]; [reflexivity |].
  intros H. apply andb_true_iff in H. destruct H as [Hc Hg].
  apply negb_true_iff in Hc. now rewrite Hc, IH.
Qed.

Lemma nul_free_until_nul t : nul_free (until_nul t) = true.
Proof.
  induction t as [| c t IH]; cbn [until_nul]; [reflexivity |].
  destruct (Ascii.eqb c Ascii.zero) eqn:E; [reflexivity |].
  cbn [nul_free]. now rewrite E, IH.
Qed.

Lemma nul_free_app a b : nul_free (a ++ b) = nul_free a && nul_free b.
Proof.
  induction a as [| c a IH]; cbn [append nul_free]; [reflexivity |].
  now rewrite IH, andb_assoc.
Qed.

Lemma nul_free_lower g : nul_free (lower g) = nul_free g.
Proof.
  induction g as [| c g IH]; cbn [lower nul_free]; [reflexivity |].
  now rewrite lower_char_nul, IH.
Qed.

Lemma nul_free_pattern g :
  nul_free g = true -> nul_free (lower ("%" ++ g ++ "%")) = true.
Proof.
  intros H. now rewrite nul_free_lower, !nul_free_app, H.
Qed.

Lemma utf8_length_app a b : utf8_length (a ++ b) = utf8_length a + utf8_length b.
Proof.
  induction a as [| c a IH]; cbn [append utf8_length]; [reflexivity |].
  rewrite IH. lia.
Qed.

Lemma utf8_length_lower g : utf8_length (lower g) = utf8_length g.
Proof.
  induction g as [| c g IH]; cbn [lower utf8_length]; [reflexivity |].
  now rewrite lower_char_width, IH.
Qed.

Lemma utf8_length_pattern g :
  utf8_length (lower ("%" ++ g ++ "%")) = utf8_length g + 2.
Proof.
  rewrite utf8_length_lower, !utf8_length_app.
  change (utf8_length "%") with 1. lia.
Qed.

(** The statement of [list_books] runs when the genre string leaves room
    for the two [%] around it. *)
Lemma like_runs_short limit g s :
  utf8_length g + 2 <= SQLITE_MAX_LIKE_PATTERN_LENGTH ->
  like_runs limit (Some g) s = true.
Proof.
  intros H. unfold like_runs.
  destruct (truthy (Some g)) as [g1 |] eqn:T; [| reflexivity].
  assert (g1 = g) by (destruct g; cbn in T; congruence). subst g1.
  destruct (books s); [reflexivity |]. destruct limit; [reflexivity |].
  rewrite utf8_length_pattern. now apply Z.leb_le.
Qed.

Lemma endpoint_books_page now skip limit genre s :
  sqlite_integer (Z.of_nat skip) = true ->
  sqlite_integer (Z.of_nat limit) = true ->
  like_runs limit genre s = true ->
  endpoint now (GET_books skip limit genre) s
  = (s, Ok (JSON_books (list_books skip limit genre s))).
Proof.
  intros Hs Hl Hr. cbn [endpoint]. unfold offset_limit, like_limit.
  now rewrite Hs, Hl, Hr.
Qed.

Lemma pattern_percent rest text :
  pattern_compare (String "%" rest) text
  = pattern_compare rest text
    || match text with
       | EmptyString => false
       | String _ text' => pattern_compare (String "%" rest) text'
       end.
Proof. destruct text; reflexivity. Qed.

Lemma pattern_percent_only text : pattern_compare "%" text = true.
Proof.
  induction text as [| c text IH]; [reflexivity |].
  rewrite pattern_percent, IH. apply orb_true_r.
Qed.

Lemma pattern_literal c rest text :
  Ascii.eqb c "%" = false -> Ascii.eqb c "_" = false ->
  pattern_compare (String c rest) text
  = match text with
    | EmptyString => false
    | String d text' => Ascii.eqb c d && pattern_compare rest text'
    end.
Proof. intros H1 H2. cbn [pattern_compare]. now rewrite H1, H2. Qed.

Lemma pattern_underscore rest text :
  pattern_compare (String "_" rest) text
  = match text with
    | EmptyString => false
    | String _ text' => pattern_compare rest text'
    end.
Proof. reflexivity. Qed.



(** The filter of [list_books] on a column value, for a genre string
    without NUL: the pattern is read whole, the value up to its first
    NUL. *)
Lemma ilike_pattern g t :
  nul_free g = true ->
  ilike t ("%" ++ g ++ "%")
  = pattern_compare (String "%" (lower g ++ "%")) (lower (until_nul t)).
Proof.
  intros Hn. unfold ilike, like.
  rewrite (until_nul_free _ (nul_free_pattern g Hn)), until_nul_lower.
  now rewrite !lower_app.
Qed.





Lemma In_paginate {A} skip limit (l : list A) x :
  In x (paginate skip limit l) -> In x l.
Proof.
  unfold paginate. intros H.
  assert (Hs : In x (skipn skip l)).
  { revert H. generalize (skipn skip l). induction limit as [| n IH];
      intros [| y r]; simpl; try tauto. intros [-> | H]; auto. }
  clear H. revert l Hs. induction skip as [| n IH]; intros [| y r]; simpl; auto.
Qed.

(** Row [i] of a page is row [skip + i] of the rows it pages through, for
    [i] below [limit], and there is no other row. *)
Lemma nth_error_paginate {A} skip limit (rows : list A) i :
  nth_error (paginate skip limit rows) i
  = if (i <? limit)%nat then nth_error rows (skip + i) else None.
Proof.
  unfold paginate. rewrite nth_error_firstn.
  destruct (i <? limit)%nat; [apply nth_error_skipn | reflexivity].
Qed.



End Properties.

(** * The statements at work on the demo library *)

Lemma access_gate_witness :
  let req := POST_authors (mkAuthorCreate "Z" None) in
  app no_env None 104 req demo_store
  = (demo_store,
     Raise (HTTPException 401
              "API Key is missing. Include it in the 'X-API-Key' header."))
  /\ app no_env (Some "wrong-key") 104 req demo_store
     = (demo_store,
        Raise (HTTPException 403 "Invalid API Key. Access denied."))
  /\ app no_env dev_key 104 req demo_store = endpoint 104 req demo_store
  /\ app no_env None 104 (GET_books 0 100 None) demo_store
     = endpoint 104 (GET_books 0 100 None) demo_store
  /\ snd (endpoint 104 (GET_books 0 100 None) demo_store)
     = Ok (JSON_books [demo_book1; demo_book2]).
Proof.
  intros req.
  pose proof (access_gate no_env None 104 req demo_store) as [H1 _].
  pose proof (access_gate no_env (Some "wrong-key") 104 req demo_store)
    as [H2 _].
  pose proof (access_gate no_env dev_key 104 req demo_store) as [H3 _].
  pose proof (access_gate no_env None 104 (GET_books 0 100 None) demo_store)
    as [_ H4].
  split; [exact (proj1 (H1 eq_refl) (or_introl eq_refl)) |].
  split.
  { apply (proj1 (proj2 (H2 eq_refl)) "wrong-key" eq_refl);
      vm_compute; discriminate. }
  split.
  { apply (proj2 (proj2 (H3 eq_refl))); [reflexivity |].
    vm_compute. discriminate. }
  split; [exact (proj1 (H4 eq_refl)) |].
  exact (proj2 (proj2 (proj2 (proj2 (H4 eq_refl))))).
Defined.

(** C9, as first stated, fails in three places.  An empty header is a
    credential that is present and is not the secret, and the request gets
    the 401, not the 403.  When the configured secret is the empty string,
    the request whose header equals it gets the 401 too and the operation
    does not proceed.  And a read does not always succeed: without any
    credential, a listing asked to skip [2^63] rows ends with the
    [OverflowError] of the driver and a lookup of an id that is not there
    with the 404. *)
Lemma access_gate_counterexample :
  let req := POST_authors (mkAuthorCreate "Z" None) in
  let missing :=
    Raise (HTTPException HTTP_401_UNAUTHORIZED
             "API Key is missing. Include it in the 'X-API-Key' header.") in
  (Some "" <> None /\ "" <> AUTH_KEY no_env
   /\ app no_env (Some "") 104 req demo_store = (demo_store, missing)
   /\ ~ raises (snd (app no_env (Some "") 104 req demo_store)) Forbidden)
  /\ (Some "" = Some (AUTH_KEY empty_secret_env)
      /\ app empty_secret_env (Some "") 104 req demo_store
         = (demo_store, missing)
      /\ app empty_secret_env (Some "") 104 req demo_store
         <> endpoint 104 req demo_store)
  /\ snd (app no_env None 104 (GET_authors beyond_int64 100) demo_store)
     = Raise too_large
  /\ snd (app no_env None 104 (GET_book 99) demo_store)
     = Raise (HTTPException HTTP_404_NOT_FOUND "Book with id 99 not found").
Proof.
  intros req missing. split; [| split; [| split]].
  - split; [discriminate |]. split; [discriminate |].
    split; [reflexivity |]. intros [d H]. discriminate H.
  - split; [reflexivity |]. split; [reflexivity | discriminate].
  - cbn [app endpoint snd]. unfold offset_limit, beyond_int64.
    rewrite Z2Nat.id by (apply Z.pow_nonneg; lia).
    change (sqlite_integer (2 ^ 63)) with false. reflexivity.
  - reflexivity.
Qed.

Lemma empty_credential_unauthenticated_witness :
  mutating (POST_loan_return 1) = true
  /\ app no_env (Some "") 104 (POST_loan_return 1) demo_store
     = (demo_store,
        Raise (HTTPException 401
                 "API Key is missing. Include it in the 'X-API-Key' header."))
  /\ app no_env (Some "wrong-key") 104 (POST_loan_return 1) demo_store
     = (demo_store,
        Raise (HTTPException 403 "Invalid API Key. Access denied."))
  /\ verify_api_key no_env (Some "")
     = Raise (HTTPException 403 "Invalid API Key. Access denied.").
Proof.
  pose proof (empty_credential_unauthenticated no_env 104 (POST_loan_return 1)
                demo_store eq_refl) as (H1 & _ & H3 & H4).
  split; [reflexivity |]. split; [exact H1 |]. split.
  - apply (H3 "wrong-key"); vm_compute; discriminate.
  - apply H4. vm_compute. discriminate.
Defined.

(** C10, as first stated, fails: the request with an empty [X-API-Key]
    header is answered with the 401, not with the 403. *)
Lemma empty_credential_counterexample :
  app no_env (Some "") 104 (POST_loan_return 1) demo_store
  = (demo_store,
     Raise (HTTPException HTTP_401_UNAUTHORIZED
              "API Key is missing. Include it in the 'X-API-Key' header."))
  /\ ~ raises (snd (app no_env (Some "") 104 (POST_loan_return 1) demo_store))
              Forbidden.
Proof.
  split; [reflexivity |]. intros [d H]. discriminate H.
Qed.



Lemma loan_book_rejects_active_loan_witness :
  exists active,
    In active (loan_records demo_store)
    /\ loan_book_id active = 1 /\ is_returned active = false
    /\ loan_book 104 1 (mkLoanRecordCreate "Jane") demo_store
       = (demo_store,
          Raise (HTTPException HTTP_400_BAD_REQUEST
                   ("Book is already loaned out to " ++ borrower_name active)))
    /\ raises (snd (loan_book 104 1 (mkLoanRecordCreate "Jane") demo_store))
              Conflict
    /\ occurs_in (borrower_name active)
                 ("Book is already loaned out to " ++ borrower_name active)
    /\ ((active_loan_count 1 demo_store <= 1)%nat -> active = demo_loan1).
Proof.
  apply (loan_book_rejects_active_loan 104 1 (mkLoanRecordCreate "Jane")
           demo_store demo_book1 demo_loan1).
  - simpl. auto.
  - reflexivity.
  - simpl. auto.
  - reflexivity.
  - reflexivity.
Defined.

Lemma return_book_one_way_witness :
  let l1 := mkLoanRecord 1 1 "John" 103 (Some 104) true in
  let s1 := fst (return_book 104 1 demo_store) in
  snd (return_book 104 1 demo_store) = Ok l1
  /\ query_loan s1 1 = Some l1
  /\ return_book 105 1 s1
     = (s1, Raise (HTTPException 400 "This book has already been returned")).
Proof.
  intros l1 s1.
  pose proof (return_book_one_way no_env 104 105 1 demo_store demo_loan1
                eq_refl eq_refl) as H.
  cbv zeta in H. destruct H as (H1 & H2 & H3 & _).
  split; [exact H1 |]. split; [exact H2 | exact H3].
Defined.

Lemma at_most_one_active_loan_witness :
  reachable no_env demo_store
  /\ In demo_book1 (books demo_store)
  /\ (active_loan_count (book_id demo_book1) demo_store <= 1)%nat.
Proof.
  assert (R : reachable no_env demo_store).
  { exact (reachable_run no_env demo_log empty_store (reachable_empty no_env)). }
  assert (I : In demo_book1 (books demo_store)) by (simpl; auto).
  split; [exact R |]. split; [exact I |].
  exact (at_most_one_active_loan no_env demo_store demo_book1 R I).
Defined.

Lemma failed_request_has_no_effect_witness :
  let dup := mkBookCreate "D" "Fiction" "1111111111111" 1 in
  fst (app no_env dev_key 104 (POST_books dup) demo_store) = demo_store
  /\ List.length (books (fst (create_book dup demo_store))) = 2%nat
  /\ snd (create_book dup demo_store)
     = Raise (HTTPException 400 "Book with ISBN 1111111111111 already exists").
Proof.
  intros dup.
  destruct (failed_request_has_no_effect no_env) as [Hatomic Hdup].
  split.
  - apply (Hatomic dev_key 104 (POST_books dup) demo_store
             (HTTPException 400 "Book with ISBN 1111111111111 already exists")).
    reflexivity.
  - destruct (Hdup dup demo_store demo_book1) as (_ & Hlen & _ & Hconflict).
    + simpl. auto.
    + reflexivity.
    + split; [exact Hlen |].
      refine (proj1 (Hconflict (mkAuthor 1 "A" None) _ _)).
      * simpl. auto.
      * reflexivity.
Defined.

Lemma update_book_partial_witness :
  let u := mkBookUpdate (Some (Some "New title")) None None in
  snd (update_book 1 u demo_store)
  = Ok (mkBook 1 "New title" "Fiction" "1111111111111" 1)
  /\ title (mkBook 1 "New title" "Fiction" "1111111111111" 1) = "New title"
  /\ genre (mkBook 1 "New title" "Fiction" "1111111111111" 1)
     = genre demo_book1
  /\ update_book 1 (mkBookUpdate None None None) demo_store
     = (demo_store, Ok demo_book1).
Proof.
  intros u.
  destruct (update_book_partial 1 u demo_store demo_book1 eq_refl)
    as (_ & Hok & Happlied & Hnothing).
  assert (E : snd (update_book 1 u demo_store)
              = Ok (mkBook 1 "New title" "Fiction" "1111111111111" 1))
    by reflexivity.
  destruct (Hok _ E) as (_ & Ht & _ & _ & Hg & _).
  split; [exact E |]. split; [exact (Ht "New title" eq_refl) |].
  split; [exact (Hg eq_refl) | exact Hnothing].
Defined.

(** C7. The update of book 1 of the demo library that sends the book's own
    ISBN together with a JSON null for the title does not succeed: the ISBN
    check is skipped, [setattr] sets [title] to [None] and the commit raises
    the [IntegrityError]; the same update without the null succeeds. *)
Lemma update_book_same_isbn_null_title :
  let u := mkBookUpdate (Some None) None (Some (Some "1111111111111")) in
  query_book demo_store 1 = Some demo_book1
  /\ bu_isbn u = Some (Some (isbn demo_book1))
  /\ app no_env dev_key 104 (PUT_book 1 u) demo_store
     = (demo_store,
        Raise (IntegrityError "NOT NULL constraint failed: books.title"))
  /\ snd (update_book 1 (mkBookUpdate None None (bu_isbn u)) demo_store)
     = Ok demo_book1.
Proof. repeat split. Qed.

Example update_book_isbn_check_demo :
  update_book 1 (mkBookUpdate None None (Some (Some "2222222222222")))
              demo_store
  = (demo_store,
     Raise (HTTPException 400 "Book with ISBN 2222222222222 already exists"))
  /\ exists b',
       snd (update_book 1 (mkBookUpdate (Some (Some "T")) None
                                        (Some (Some "1111111111111")))
                        demo_store) = Ok b'
       /\ isbn b' = "1111111111111".
Proof.
  split.
  - refine (proj1 (proj1 (update_book_isbn_check 1
                            (mkBookUpdate None None (Some (Some "2222222222222")))
                            demo_store demo_book1 "2222222222222"
                            eq_refl eq_refl) _ _)).
    + simpl. discriminate.
    + exists demo_book2. simpl. auto.
  - destruct (proj2 (update_book_isbn_check 1
                       (mkBookUpdate (Some (Some "T")) None
                                     (Some (Some "1111111111111")))
                       demo_store demo_book1 "1111111111111"
                       eq_refl eq_refl) eq_refl) as [_ H].
    destruct (H eq_refl eq_refl) as (b' & Hb' & Hi & _).
    exists b'. split; [exact Hb' | exact Hi].
Qed.



(** The three other ways in which the filter is not the substring test of
    the specification.  A genre is read up to its first NUL: the book whose
    genre is [Science], a NUL, [Fiction] is not listed for [fic], and it is
    listed for [sci].  Only the letters [A]..[Z] are folded: the book whose
    genre starts with a capital E with an acute accent is not listed for
    the same genre written with the small letter (code point 233).  And a
    listing asked to skip [2^63] rows returns no page at all. *)
Example list_books_nul_accent_overflow :
  (occurs_in "fic" (lower nul_genre)
   /\ endpoint 104 (GET_books 0 100 (Some "fic")) nul_store
      = (nul_store, Ok (JSON_books []))
   /\ endpoint 104 (GET_books 0 100 (Some "sci")) nul_store
      = (nul_store, Ok (JSON_books (books nul_store))))
  /\ (endpoint 104
        (GET_books 0 100 (Some (String (ascii_of_nat 233) "pop"))) accent_store
      = (accent_store, Ok (JSON_books []))
      /\ endpoint 104
           (GET_books 0 100 (Some (String (ascii_of_nat 201) "pop")))
           accent_store
         = (accent_store, Ok (JSON_books (books accent_store))))
  /\ endpoint 104 (GET_books beyond_int64 100 (Some "fic")) demo_store
     = (demo_store, Raise too_large).
Proof.
  split; [| split].
  - split; [| split; reflexivity].
    exists ("science" ++ String Ascii.zero ""), "tion". reflexivity.
  - split; reflexivity.
  - cbn [endpoint]. unfold offset_limit, beyond_int64.
    rewrite Z2Nat.id by (apply Z.pow_nonneg; lia).
    change (sqlite_integer (2 ^ 63)) with false. reflexivity.
Qed.

(** * Further properties of the handlers *)

(** ** Keys *)

Lemma ids_upto_S n : ids_upto (S n) = (ids_upto n ++ [Z.of_nat (S n)])%list.
Proof. unfold ids_upto. now rewrite seq_S, map_app. Qed.

Lemma fold_max_ids_upto n a :
  0 <= a -> fold_right Z.max a (ids_upto n) = Z.max a (Z.of_nat n).
Proof.
  revert a. induction n as [| n IH]; intros a Ha.
  - simpl. lia.
  - rewrite ids_upto_S, fold_right_app. cbn [fold_right].
    rewrite IH by lia. lia.
Qed.

Lemma next_id_upto n : next_id (ids_upto n) = Z.of_nat (S n).
Proof. unfold next_id. rewrite fold_max_ids_upto by lia. lia. Qed.

Lemma next_id_fresh ids x : In x ids -> x < next_id ids.
Proof.
  unfold next_id. induction ids as [| y ids IH]; cbn [fold_right In];
    [tauto |].
  intros [-> | H]; [lia |]. specialize (IH H). lia.
Qed.

Lemma nth_error_ids_upto n i x :
  nth_error (ids_upto n) i = Some x -> x = Z.of_nat i + 1 /\ (i < n)%nat.
Proof.
  unfold ids_upto. rewrite nth_error_map, nth_error_seq.
  destruct (Nat.ltb_spec i n); simpl; [| discriminate].
  intros [= <-]. split; lia.
Qed.

Lemma In_ids_upto n x : In x (ids_upto n) <-> 1 <= x <= Z.of_nat n.
Proof.
  unfold ids_upto. rewrite in_map_iff. split.
  - intros [k [<- Hk]]. apply in_seq in Hk. lia.
  - intros H. exists (Z.to_nat x). split; [lia |]. apply in_seq. lia.
Qed.

Lemma NoDup_ids_upto n : NoDup (ids_upto n).
Proof.
  unfold ids_upto. apply NoDup_map_NoDup_ForallPairs; [| apply seq_NoDup].
  intros x y _ _ H. lia.
Qed.

(** A table whose keys are all different returns, for the key of a row, that
    row. *)
Lemma find_by_key {A} (key : A -> Z) (l : list A) x :
  NoDup (map key l) -> In x l -> find (fun y => key y =? key x) l = Some x.
Proof.
  induction l as [| a l IH]; simpl; [tauto |].
  intros Hnd Hin. inversion Hnd as [| k ks Hk Hnd']; subst.
  destruct (Z.eqb_spec (key a) (key x)) as [E | E].
  - destruct Hin as [-> | Hin]; [reflexivity |].
    exfalso. apply Hk. rewrite E. now apply in_map.
  - destruct Hin as [-> | Hin]; [congruence | now apply IH].
Qed.

Lemma find_key_In {A} (key : A -> Z) (l : list A) k :
  In k (map key l) -> exists x, find (fun y => key y =? k) l = Some x.
Proof.
  intros H. apply in_map_iff in H. destruct H as [x [Hk Hx]].
  apply (find_present _ l x Hx). now apply Z.eqb_eq.
Qed.

Lemma find_key_some {A} (key : A -> Z) (l : list A) k x :
  find (fun y => key y =? k) l = Some x -> In x l /\ key x = k.
Proof. intros H. apply find_some in H. now rewrite Z.eqb_eq in H. Qed.

(** Looking a key up after a row was appended. *)
Lemma find_app_last {A} (key : A -> Z) (l : list A) y k :
  find (fun x => key x =? k) (l ++ [y])
  = match find (fun x => key x =? k) l with
    | Some x => Some x
    | None => if key y =? k then Some y else None
    end.
Proof.
  induction l as [| a l IH]; simpl; [reflexivity |].
  destruct (key a =? k); [reflexivity | exact IH].
Qed.

Lemma find_fresh_none {A} (key : A -> Z) (l : list A) k :
  (forall x, In x l -> key x < k) -> find (fun x => key x =? k) l = None.
Proof.
  intros H. apply find_absent. intros x Hx. apply Z.eqb_neq.
  specialize (H x Hx). lia.
Qed.

Lemma NoDup_insert {A} (l1 l2 : list A) v :
  NoDup (l1 ++ l2) -> ~ In v (l1 ++ l2) -> NoDup (l1 ++ v :: l2).
Proof.
  induction l1 as [| a l1 IH]; simpl; intros Hnd Hv.
  - now constructor.
  - inversion Hnd as [| ? ? Ha Hnd']; subst. constructor.
    + rewrite in_app_iff in *. simpl. intros [H | [H | H]]; subst; tauto.
    + apply IH; tauto.
Qed.

(** ** Every store the service reaches is well formed *)

Lemma ids_append {A} (key : A -> Z) (l : list A) y :
  map key l = ids_upto (List.length l) ->
  key y = next_id (map key l) ->
  map key (l ++ [y]) = ids_upto (List.length (l ++ [y])).
Proof.
  intros Hl Hy. rewrite map_app, length_app, Nat.add_1_r, ids_upto_S.
  cbn [map List.length]. now rewrite Hy, Hl, next_id_upto.
Qed.

Lemma wf_empty_store : wf_store empty_store.
Proof. constructor; simpl; try reflexivity; try tauto. constructor. Qed.

Lemma create_author_wf author s :
  wf_store s -> wf_store (fst (create_author author s)).
Proof.
  intros [H1 H2 H3 H4 H5 H6 H7]. unfold create_author. cbn [fst].
  constructor; cbn [authors books loan_records]; try assumption.
  - now apply ids_append.
  - intros b Hb. rewrite map_app. apply in_or_app. left. now apply H5.
Qed.

Lemma not_in_isbn s v :
  query_book_by_isbn s v = None -> ~ In v (map isbn (books s)).
Proof.
  unfold query_book_by_isbn. intros Hnone Hin.
  apply in_map_iff in Hin. destruct Hin as [x [Hx Hin]].
  pose proof (find_none _ _ Hnone x Hin) as H. cbn beta in H.
  rewrite Hx, String.eqb_refl in H. discriminate.
Qed.

Lemma create_book_wf book s :
  wf_store s -> wf_store (fst (create_book book s)).
Proof.
  intros Hwf. pose proof Hwf as [H1 H2 H3 H4 H5 H6 H7]. unfold create_book.
  destruct (query_author s (bc_author_id book)) as [a |] eqn:Ea;
    [| exact Hwf].
  destruct (query_book_by_isbn s (bc_isbn book)) eqn:Eb; [exact Hwf |].
  cbn [fst]. constructor; cbn [authors books loan_records]; try assumption.
  - now apply ids_append.
  - rewrite map_app. cbn [map isbn].
    rewrite <- (app_nil_r (map isbn (books s))) in H4 |- * at 1.
    rewrite <- app_assoc. cbn [app]. apply NoDup_insert; [exact H4 |].
    rewrite app_nil_r. now apply not_in_isbn.
  - intros b Hb. apply in_app_or in Hb. destruct Hb as [Hb | [<- | []]].
    + now apply H5.
    + cbn [book_author_id]. apply find_key_some in Ea. destruct Ea as [Ha <-].
      now apply in_map.
  - intros l Hl. rewrite map_app. apply in_or_app. left. now apply H6.
Qed.

Lemma update_books_ids pk u rows :
  map book_id (update_books_where_id pk u rows) = map book_id rows.
Proof.
  unfold update_books_where_id. rewrite map_map. apply map_ext.
  intros b. now destruct (book_id b =? pk).
Qed.

Lemma update_books_length pk u rows :
  List.length (update_books_where_id pk u rows) = List.length rows.
Proof. apply length_map. Qed.

Lemma update_books_author_ids pk u rows :
  map book_author_id (update_books_where_id pk u rows)
  = map book_author_id rows.
Proof.
  unfold update_books_where_id. rewrite map_map. apply map_ext.
  intros b. now destruct (book_id b =? pk).
Qed.

Lemma update_books_other pk u rows :
  ~ In pk (map book_id rows) -> update_books_where_id pk u rows = rows.
Proof.
  unfold update_books_where_id. induction rows as [| x rows IH];
    cbn [map In]; intros H; [reflexivity |].
  destruct (Z.eqb_spec (book_id x) pk); [tauto |]. f_equal. apply IH. tauto.
Qed.

(** With keys all different, the update rewrites one row and leaves the
    rows before and after it as they are. *)
Lemma update_books_split pk u rows b :
  NoDup (map book_id rows) -> In b rows -> book_id b = pk ->
  exists l1 l2,
    rows = (l1 ++ b :: l2)%list
    /\ update_books_where_id pk u rows
       = (l1 ++ mkBook (book_id b)
                       (set_column (title b) (bu_title u))
                       (set_column (genre b) (bu_genre u))
                       (set_column (isbn b) (bu_isbn u))
                       (book_author_id b) :: l2)%list.
Proof.
  intros Hnd Hin Hpk. destruct (in_split _ _ Hin) as (l1 & l2 & ->).
  exists l1, l2. split; [reflexivity |].
  rewrite map_app in Hnd. cbn [map] in Hnd.
  pose proof (NoDup_remove_2 _ _ _ Hnd) as Hb. rewrite Hpk in Hb.
  rewrite in_app_iff in Hb.
  unfold update_books_where_id. rewrite map_app. cbn [map].
  fold (update_books_where_id pk u l1). fold (update_books_where_id pk u l2).
  rewrite !update_books_other by tauto.
  now rewrite Hpk, Z.eqb_refl.
Qed.

Lemma update_book_wf bid u s :
  wf_store s -> wf_store (fst (update_book bid u s)).
Proof.
  intros Hwf. pose proof Hwf as [H1 H2 H3 H4 H5 H6 H7]. unfold update_book.
  destruct (query_book s bid) as [b |] eqn:Eb; [| exact Hwf].
  destruct (existing_isbn s b (bu_isbn u)) eqn:Ei; [exact Hwf |].
  destruct (setattr (title b) (bu_title u)) as [t |]; [| exact Hwf].
  destruct (setattr (genre b) (bu_genre u)) as [g |]; [| exact Hwf].
  destruct (setattr (isbn b) (bu_isbn u)) as [i |] eqn:Es; [| exact Hwf].
  cbn [fst]. apply find_key_some in Eb. destruct Eb as [Hb Hid].
  constructor; cbn [authors books loan_records]; try assumption.
  - now rewrite update_books_ids, update_books_length.
  - assert (Hnd : NoDup (map book_id (books s))).
    { rewrite H2. apply NoDup_ids_upto. }
    destruct (update_books_split (book_id b) u (books s) b Hnd Hb eq_refl)
      as (l1 & l2 & E & ->).
    rewrite E in H4. rewrite map_app in *. cbn [map isbn] in *.
    destruct (bu_isbn u) as [[v |] |] eqn:Ev; cbn [set_column];
      try exact H4.
    cbn [existing_isbn] in Ei.
    destruct (String.eqb_spec v (isbn b)) as [-> | Hne]; [exact H4 |].
    cbn [negb] in Ei.
    destruct (query_book_by_isbn s v) eqn:Eq; [discriminate |].
    apply not_in_isbn in Eq. rewrite E, map_app in Eq. cbn [map] in Eq.
    apply NoDup_insert; [now apply NoDup_remove_1 in H4 |].
    rewrite in_app_iff in *. cbn [In] in Eq. tauto.
  - intros x Hx. apply (in_map book_author_id) in Hx.
    rewrite update_books_author_ids in Hx. apply in_map_iff in Hx.
    destruct Hx as [y [<- Hy]]. now apply H5.
  - intros l Hl. rewrite update_books_ids. now apply H6.
Qed.

Lemma loan_book_wf now bid loan_data s :
  wf_store s -> wf_store (fst (loan_book now bid loan_data s)).
Proof.
  intros Hwf. pose proof Hwf as [H1 H2 H3 H4 H5 H6 H7]. unfold loan_book.
  destruct (query_book s bid) as [b |] eqn:Eb; [| exact Hwf].
  destruct (query_active_loan s bid); [exact Hwf |].
  cbn [fst]. constructor; cbn [authors books loan_records]; try assumption.
  - now apply ids_append.
  - intros l Hl. apply in_app_or in Hl. destruct Hl as [Hl | [<- | []]].
    + now apply H6.
    + cbn [loan_book_id]. apply find_key_some in Eb. destruct Eb as [Hb <-].
      now apply in_map.
  - intros l Hl. apply in_app_or in Hl. destruct Hl as [Hl | [<- | []]].
    + now apply H7.
    + reflexivity.
Qed.

Lemma update_loans_ids pk now rows :
  map loan_id (update_loans_where_id pk now rows) = map loan_id rows.
Proof.
  unfold update_loans_where_id. rewrite map_map. apply map_ext.
  intros l. now destruct (loan_id l =? pk).
Qed.

Lemma update_loans_length pk now rows :
  List.length (update_loans_where_id pk now rows) = List.length rows.
Proof. apply length_map. Qed.

Lemma return_book_wf now lid s :
  wf_store s -> wf_store (fst (return_book now lid s)).
Proof.
  intros Hwf. pose proof Hwf as [H1 H2 H3 H4 H5 H6 H7]. unfold return_book.
  destruct (query_loan s lid) as [l |]; [| exact Hwf].
  destruct (is_returned l); [exact Hwf |].
  cbn [fst]. constructor; cbn [authors books loan_records]; try assumption.
  - now rewrite update_loans_ids, update_loans_length.
  - intros x Hx. unfold update_loans_where_id in Hx. apply in_map_iff in Hx.
    destruct Hx as [y [<- Hy]].
    destruct (loan_id y =? loan_id l); cbn [mark_returned loan_book_id];
      now apply H6.
  - intros x Hx. unfold update_loans_where_id in Hx. apply in_map_iff in Hx.
    destruct Hx as [y [<- Hy]].
    destruct (loan_id y =? loan_id l); [reflexivity | now apply H7].
Qed.

Lemma endpoint_wf now req s :
  wf_store s -> wf_store (fst (endpoint now req s)).
Proof.
  intros Hwf.
  destruct req; cbn [endpoint]; try rewrite respond_fst; cbn [fst];
    try assumption.
  - now apply create_author_wf.
  - now apply create_book_wf.
  - now apply update_book_wf.
  - now apply loan_book_wf.
  - now apply return_book_wf.
Qed.

Lemma reachable_wf environ s : reachable environ s -> wf_store s.
Proof.
  induction 1 as [| x_api_key now req s _ IH].
  - exact wf_empty_store.
  - destruct (app_store environ x_api_key now req s) as [-> | ->];
      [exact IH | now apply endpoint_wf].
Qed.

Lemma NoDup_map_inj {A B} (f : A -> B) (l : list A) x y :
  NoDup (map f l) -> In x l -> In y l -> f x = f y -> x = y.
Proof.
  induction l as [| a l IH]; cbn [map In]; [tauto |].
  intros Hnd Hx Hy E. inversion Hnd as [| ? ? Ha Hnd']; subst.
  destruct Hx as [-> | Hx], Hy as [-> | Hy]; try reflexivity.
  - exfalso. apply Ha. rewrite E. now apply in_map.
  - exfalso. apply Ha. rewrite <- E. now apply in_map.
  - now apply IH.
Qed.

Lemma nth_error_key {A} (key : A -> Z) (l : list A) i x :
  map key l = ids_upto (List.length l) ->
  nth_error l i = Some x -> key x = Z.of_nat i + 1.
Proof.
  intros Hl Hx. apply (map_nth_error key) in Hx. rewrite Hl in Hx.
  now apply nth_error_ids_upto in Hx.
Qed.

(** In a table with keys [1..n], a key in that range finds the row at
    position [key - 1] and any other key finds nothing. *)
Lemma find_in_sequence {A} (key : A -> Z) (l : list A) k :
  map key l = ids_upto (List.length l) ->
  (1 <= k <= Z.of_nat (List.length l) ->
     exists x, nth_error l (Z.to_nat (k - 1)) = Some x
               /\ find (fun y => key y =? k) l = Some x)
  /\ (~ 1 <= k <= Z.of_nat (List.length l) ->
        find (fun y => key y =? k) l = None).
Proof.
  intros Hl. split; intros Hk.
  - assert (Hin : In k (map key l)) by (rewrite Hl; now apply In_ids_upto).
    destruct (find_key_In key l k Hin) as [x Hx]. exists x. split; [| exact Hx].
    apply find_key_some in Hx. destruct Hx as [Hx Hkx].
    destruct (In_nth_error _ _ Hx) as [i Hi].
    pose proof (nth_error_key key l i x Hl Hi) as E.
    replace (Z.to_nat (k - 1)) with i by lia. exact Hi.
  - apply find_absent. intros x Hx. apply Z.eqb_neq. intros E. apply Hk.
    apply In_ids_upto. rewrite <- Hl, <- E. now apply in_map.
Qed.

Section Invariants.

Variable environ : string -> option string.

(** X1. In every store the service reaches, the keys of each table are
    handed out in sequence: the row at position [i] (counting from 0) of
    the authors, of the books and of the loans has id [i + 1]. *)
Theorem keys_in_sequence s :
  reachable environ s ->
  (forall i a, nth_error (authors s) i = Some a -> author_id a = Z.of_nat i + 1)
  /\ (forall i b, nth_error (books s) i = Some b -> book_id b = Z.of_nat i + 1)
  /\ (forall i l, nth_error (loan_records s) i = Some l ->
                  loan_id l = Z.of_nat i + 1).
Proof.
  intros Hs. destruct (reachable_wf environ s Hs) as [H1 H2 H3 _ _ _ _].
  repeat split; intros i x Hx.
  - exact (nth_error_key author_id _ i x H1 Hx).
  - exact (nth_error_key book_id _ i x H2 Hx).
  - exact (nth_error_key loan_id _ i x H3 Hx).
Qed.

(** X2. In every store the service reaches, no two books have the same
    ISBN: neither [create_book] nor [update_book] lets a second book take an
    ISBN that is in use. *)
Theorem isbn_unique s b1 b2 :
  reachable environ s ->
  In b1 (books s) -> In b2 (books s) -> isbn b1 = isbn b2 -> b1 = b2.
Proof.
  intros Hs. destruct (reachable_wf environ s Hs) as [_ _ _ H4 _ _ _].
  now apply NoDup_map_inj.
Qed.

(** X3. In every store the service reaches, the relationships of the models
    resolve and agree in both directions: every book has an author, and a
    book is among [Author.books] of an author of the store exactly when it
    is a book of the store whose [Book.author] is that author; every loan
    has a book, and a loan is among [Book.loan_records] of a book of the
    store exactly when it is a loan of the store whose [LoanRecord.book] is
    that book. *)
Theorem relationships_consistent s :
  reachable environ s ->
  (forall b, In b (books s) ->
     exists a, Book_author s b = Some a /\ In a (authors s))
  /\ (forall a b, In a (authors s) ->
        (In b (Author_books s a)
         <-> In b (books s) /\ Book_author s b = Some a))
  /\ (forall l, In l (loan_records s) ->
        exists b, LoanRecord_book s l = Some b /\ In b (books s))
  /\ (forall b l, In b (books s) ->
        (In l (Book_loan_records s b)
         <-> In l (loan_records s) /\ LoanRecord_book s l = Some b)).
Proof.
  intros Hs. destruct (reachable_wf environ s Hs) as [H1 H2 _ _ H5 H6 _].
  assert (N1 : NoDup (map author_id (authors s)))
    by (rewrite H1; apply NoDup_ids_upto).
  assert (N2 : NoDup (map book_id (books s)))
    by (rewrite H2; apply NoDup_ids_upto).
  split; [| split; [| split]].
  - intros b Hb. destruct (find_key_In author_id _ _ (H5 b Hb)) as [a Ha].
    exists a. split; [exact Ha |]. now apply find_key_some in Ha.
  - intros a b Ha. unfold Author_books, Book_author, query_author.
    rewrite filter_In, Z.eqb_eq. split.
    + intros [Hb E]. split; [exact Hb |]. rewrite E. now apply find_by_key.
    + intros [Hb Hq]. split; [exact Hb |]. apply find_key_some in Hq.
      symmetry. tauto.
  - intros l Hl. destruct (find_key_In book_id _ _ (H6 l Hl)) as [b Hb].
    exists b. split; [exact Hb |]. now apply find_key_some in Hb.
  - intros b l Hb. unfold Book_loan_records, LoanRecord_book, query_book.
    rewrite filter_In, Z.eqb_eq. split.
    + intros [Hl E]. split; [exact Hl |]. rewrite E. now apply find_by_key.
    + intros [Hl Hq]. split; [exact Hl |]. apply find_key_some in Hq.
      symmetry. tauto.
Qed.

(** X4. In every store the service reaches, [get_author] answers exactly the
    ids [1..n], [n] being the number of authors, with the author at position
    [id - 1].  For every other id it raises the 404 when the id is an SQLite
    INTEGER (a signed 64-bit integer), zero and negative ids included, and
    ends with the [OverflowError] of the driver when it is not.  [get_book]
    does the same on the books. *)
Theorem get_by_id s i :
  reachable environ s ->
  (1 <= i <= Z.of_nat (List.length (authors s)) ->
     exists a, nth_error (authors s) (Z.to_nat (i - 1)) = Some a
               /\ get_author i s = Ok a)
  /\ (~ 1 <= i <= Z.of_nat (List.length (authors s)) ->
        get_author i s
        = Raise (if sqlite_integer i
                 then HTTPException HTTP_404_NOT_FOUND
                        ("Author with id " ++ str_of_int i ++ " not found")
                 else OverflowError
                        "Python int too large to convert to SQLite INTEGER"))
  /\ (1 <= i <= Z.of_nat (List.length (books s)) ->
        exists b, nth_error (books s) (Z.to_nat (i - 1)) = Some b
                  /\ get_book i s = Ok b)
  /\ (~ 1 <= i <= Z.of_nat (List.length (books s)) ->
        get_book i s
        = Raise (if sqlite_integer i
                 then HTTPException HTTP_404_NOT_FOUND
                        ("Book with id " ++ str_of_int i ++ " not found")
                 else OverflowError
                        "Python int too large to convert to SQLite INTEGER")).
Proof.
  intros Hs. destruct (reachable_wf environ s Hs) as [H1 H2 _ _ _ _ _].
  destruct (find_in_sequence author_id (authors s) i H1) as [A1 A2].
  destruct (find_in_sequence book_id (books s) i H2) as [B1 B2].
  unfold get_author, get_book, query_author, query_book.
  repeat split; intros Hi.
  - destruct (A1 Hi) as (a & Ha & ->). eauto.
  - now rewrite (A2 Hi).
  - destruct (B1 Hi) as (b & Hb & ->). eauto.
  - now rewrite (B2 Hi).
Qed.

(** X5. In every store the service reaches, a loan has a return time
    exactly when it is marked returned. *)
Theorem returned_at_iff_returned s l :
  reachable environ s -> In l (loan_records s) ->
  (is_returned l = true <-> exists t, returned_at l = Some t).
Proof.
  intros Hs Hl. destruct (reachable_wf environ s Hs) as [_ _ _ _ _ _ H7].
  rewrite (H7 l Hl). destruct (returned_at l) as [t |]; split.
  - eauto.
  - reflexivity.
  - discriminate.
  - intros [t H]. discriminate.
Qed.

End Invariants.

(** ** Creating and reading back *)

Lemma find_appended {A} (key : A -> Z) (l : list A) y k :
  key y = k -> k = next_id (map key l) ->
  find (fun x => key x =? k) (l ++ [y]) = Some y.
Proof.
  intros Hy Hk. rewrite find_app_last, find_fresh_none, Hy, Z.eqb_refl;
    [reflexivity |].
  intros x Hx. rewrite Hk. apply next_id_fresh. now apply in_map.
Qed.

Lemma find_kept {A} (key : A -> Z) (l : list A) y k x :
  find (fun z => key z =? k) l = Some x ->
  find (fun z => key z =? k) (l ++ [y]) = Some x.
Proof. intros H. now rewrite find_app_last, H. Qed.

(** X6. Whatever the store, [create_author] succeeds and the author it
    returns carries the name and bio sent and is what [get_author] returns
    for its id in the new store; a [create_book] that succeeds returns a
    book with the fields sent that [get_book] returns for its id; a
    [loan_book] that succeeds returns a loan that its id finds.  In each
    case every id that was answered before is answered with the same row
    afterwards. *)
Theorem create_then_get :
  (forall author s,
     exists a,
       snd (create_author author s) = Ok a
       /\ name a = ac_name author /\ bio a = ac_bio author
       /\ get_author (author_id a) (fst (create_author author s)) = Ok a
       /\ (forall i x, get_author i s = Ok x ->
                       get_author i (fst (create_author author s)) = Ok x))
  /\ (forall book s b,
        snd (create_book book s) = Ok b ->
        title b = bc_title book /\ genre b = bc_genre book
        /\ isbn b = bc_isbn book /\ book_author_id b = bc_author_id book
        /\ get_book (book_id b) (fst (create_book book s)) = Ok b
        /\ (forall i x, get_book i s = Ok x ->
                        get_book i (fst (create_book book s)) = Ok x))
  /\ (forall now bid loan_data s l,
        snd (loan_book now bid loan_data s) = Ok l ->
        loan_book_id l = bid
        /\ borrower_name l = lc_borrower_name loan_data
        /\ loaned_at l = now /\ returned_at l = None
        /\ is_returned l = false
        /\ query_loan (fst (loan_book now bid loan_data s)) (loan_id l)
           = Some l
        /\ (forall i x, query_loan s i = Some x ->
                        query_loan (fst (loan_book now bid loan_data s)) i
                        = Some x)).
Proof.
  split; [| split].
  - intros author s. unfold create_author. cbn [fst snd].
    set (a := mkAuthor _ _ _). exists a.
    repeat (split; [reflexivity |]).
    unfold get_author, query_author. cbn [authors]. split.
    + now rewrite (find_appended author_id (authors s) a (author_id a)
                     eq_refl eq_refl).
    + intros i x. destruct (find _ (authors s)) as [a0 |] eqn:E;
        [| discriminate]. intros [= ->].
      now rewrite (find_kept author_id _ _ i x).
  - intros book s b. unfold create_book.
    destruct (query_author s (bc_author_id book)); [| discriminate].
    destruct (query_book_by_isbn s (bc_isbn book)); [discriminate |].
    cbn [fst snd]. set (b1 := mkBook _ _ _ _ _). intros [= <-].
    repeat (split; [reflexivity |]).
    unfold get_book, query_book. cbn [books]. split.
    + now rewrite (find_appended book_id (books s) b1 (book_id b1)
                     eq_refl eq_refl).
    + intros i x. destruct (find _ (books s)) as [b0 |] eqn:E;
        [| discriminate]. intros [= ->].
      now rewrite (find_kept book_id _ _ i x).
  - intros now bid loan_data s l. unfold loan_book.
    destruct (query_book s bid); [| discriminate].
    destruct (query_active_loan s bid); [discriminate |].
    cbn [fst snd]. set (l1 := mkLoanRecord _ _ _ _ _ _). intros [= <-].
    repeat (split; [reflexivity |]).
    unfold query_loan. cbn [loan_records]. split.
    + now rewrite (find_appended loan_id (loan_records s) l1 (loan_id l1)
                     eq_refl eq_refl).
    + intros i x H. now rewrite (find_kept loan_id _ _ i x).
Qed.

(** ** Pagination *)

Lemma firstn_plus {A} a b (l : list A) :
  firstn (a + b) l = (firstn a l ++ firstn b (skipn a l))%list.
Proof.
  revert l. induction a as [| a IH]; intros [| x l]; simpl;
    try reflexivity.
  - now rewrite firstn_nil.
  - now rewrite IH.
Qed.

Lemma paginate_pages {A} skip a b (rows : list A) :
  paginate skip (a + b) rows
  = (paginate skip a rows ++ paginate (skip + a) b rows)%list.
Proof.
  unfold paginate. rewrite firstn_plus, skipn_skipn.
  now rewrite (Nat.add_comm a skip).
Qed.

Lemma paginate_length {A} skip limit (rows : list A) :
  (List.length (paginate skip limit rows) <= limit)%nat.
Proof. apply firstn_le_length. Qed.

Lemma paginate_beyond {A} skip limit (rows : list A) :
  (List.length rows <= skip)%nat -> paginate skip limit rows = [].
Proof.
  intros H. unfold paginate. rewrite skipn_all2 by exact H. apply firstn_nil.
Qed.

Lemma paginate_nth {A} skip limit (rows : list A) i :
  (i < limit)%nat ->
  nth_error (paginate skip limit rows) i = nth_error rows (skip + i).
Proof.
  intros H. unfold paginate. rewrite nth_error_firstn.
  destruct (Nat.ltb_spec i limit); [| lia]. apply nth_error_skipn.
Qed.

Lemma sqlite_integer_le n m :
  (n <= m)%nat -> sqlite_integer (Z.of_nat m) = true ->
  sqlite_integer (Z.of_nat n) = true.
Proof.
  unfold sqlite_integer. intros Hle H.
  apply andb_true_iff in H. destruct H as [_ H]. apply Z.leb_le in H.
  apply andb_true_iff. split; apply Z.leb_le.
  - transitivity 0; [| lia]. apply Z.opp_nonpos_nonneg, Z.pow_nonneg. lia.
  - transitivity (Z.of_nat m); [lia | exact H].
Qed.

Lemma like_runs_fits limit genre s :
  genre_fits genre = true -> like_runs limit genre s = true.
Proof.
  destruct genre as [g |]; [| reflexivity].
  intros H. apply like_runs_short. now apply Z.leb_le.
Qed.

Lemma paginate_from_start {A} skip limit (rows : list A) i :
  (i < limit)%nat ->
  nth_error (paginate skip limit rows) i
  = nth_error (paginate 0 (skip + limit) rows) (skip + i).
Proof.
  intros Hi. rewrite !nth_error_paginate.
  destruct (Nat.ltb_spec i limit); [| lia].
  destruct (Nat.ltb_spec (skip + i) (skip + limit)); [| lia]. reflexivity.
Qed.

(** X7. For each of the three listings, filtered or not, called with [skip]
    and [limit] that are SQLite INTEGERs and, for the books, with a genre
    string of at most 49998 bytes: the handler returns its page; row [i] of
    a page is row [skip + i] of the listing read from the start, which
    without filter is row [skip + i] of the table; a page never has more
    than [limit] rows; two consecutive pages put together are the page of
    their combined size; and a page that starts at or after the end of the
    table is empty. *)
Theorem listing_pages now skip a b genre active_only s :
  sqlite_integer (Z.of_nat (skip + a + b)) = true ->
  genre_fits genre = true ->
  (forall sk li, (sk + li <= skip + a + b)%nat ->
     endpoint now (GET_authors sk li) s
     = (s, Ok (JSON_authors (list_authors sk li s)))
     /\ endpoint now (GET_books sk li genre) s
        = (s, Ok (JSON_books (list_books sk li genre s)))
     /\ endpoint now (GET_loans sk li active_only) s
        = (s, Ok (JSON_loans (list_loans sk li active_only s))))
  /\ (forall i, (i < a)%nat ->
        nth_error (list_authors skip a s) i = nth_error (authors s) (skip + i)
        /\ nth_error (list_books skip a genre s) i
           = nth_error (list_books 0 (skip + a) genre s) (skip + i)
        /\ nth_error (list_books skip a None s) i
           = nth_error (books s) (skip + i)
        /\ nth_error (list_loans skip a active_only s) i
           = nth_error (list_loans 0 (skip + a) active_only s) (skip + i)
        /\ nth_error (list_loans skip a false s) i
           = nth_error (loan_records s) (skip + i))
  /\ ((List.length (list_authors skip a s) <= a)%nat
      /\ (List.length (list_books skip a genre s) <= a)%nat
      /\ (List.length (list_loans skip a active_only s) <= a)%nat)
  /\ (list_authors skip (a + b) s
      = (list_authors skip a s ++ list_authors (skip + a) b s)%list
      /\ list_books skip (a + b) genre s
         = (list_books skip a genre s ++ list_books (skip + a) b genre s)%list
      /\ list_loans skip (a + b) active_only s
         = (list_loans skip a active_only s
            ++ list_loans (skip + a) b active_only s)%list)
  /\ ((List.length (authors s) <= skip)%nat -> list_authors skip a s = [])
  /\ ((List.length (books s) <= skip)%nat -> list_books skip a genre s = [])
  /\ ((List.length (loan_records s) <= skip)%nat ->
        list_loans skip a active_only s = []).
Proof.
  intros Hint Hfits.
  split; [| unfold list_authors, list_books, list_loans;
            split; [| split; [| split; [| split; [| split]]]]].
  - intros sk li Hle.
    assert (Hsk : sqlite_integer (Z.of_nat sk) = true)
      by (apply (sqlite_integer_le sk (skip + a + b)); [lia | exact Hint]).
    assert (Hli : sqlite_integer (Z.of_nat li) = true)
      by (apply (sqlite_integer_le li (skip + a + b)); [lia | exact Hint]).
    split; [| split].
    + cbn [endpoint]. unfold offset_limit. now rewrite Hsk, Hli.
    + apply endpoint_books_page; [exact Hsk | exact Hli |].
      now apply like_runs_fits.
    + cbn [endpoint]. unfold offset_limit. now rewrite Hsk, Hli.
  - intros i Hi. cbn [truthy].
    repeat split; try (now apply paginate_from_start);
      now rewrite paginate_nth.
  - repeat split; apply paginate_length.
  - repeat split; apply paginate_pages.
  - apply paginate_beyond.
  - intros H. apply paginate_beyond.
    destruct (truthy genre); [| exact H].
    etransitivity; [apply filter_length_le | exact H].
  - intros H. apply paginate_beyond.
    destruct active_only; [| exact H].
    etransitivity; [apply filter_length_le | exact H].
Qed.

(** ** Loans *)

Lemma filter_nil_find_none {A} (f : A -> bool) (l : list A) :
  filter f l = [] -> find f l = None.
Proof.
  induction l as [| x l IH]; simpl; [reflexivity |].
  destruct (f x); [discriminate | exact IH].
Qed.

Lemma active_count_zero bid s :
  active_loan_count bid s = 0%nat <-> query_active_loan s bid = None.
Proof.
  unfold active_loan_count, active_loans, query_active_loan. split.
  - intros H. apply filter_nil_find_none. now apply length_zero_iff_nil.
  - intros H. now rewrite filter_find_none.
Qed.

Lemma active_after_append bid rows r :
  List.length (filter (is_active_for bid) (rows ++ [r]))
  = (List.length (filter (is_active_for bid) rows)
     + if is_active_for bid r then 1 else 0)%nat.
Proof.
  rewrite filter_app, length_app. cbn [filter].
  now destruct (is_active_for bid r).
Qed.

(** X8. Whatever the store, [loan_book] succeeds exactly when a book has
    the id and no loan of that book is unreturned.  When it succeeds, the
    book has exactly one unreturned loan afterwards and the number of
    unreturned loans of every other book is what it was. *)
Theorem loan_book_available now bid loan_data s :
  ((exists l, snd (loan_book now bid loan_data s) = Ok l)
   <-> (exists b, In b (books s) /\ book_id b = bid)
       /\ active_loan_count bid s = 0%nat)
  /\ (forall l, snd (loan_book now bid loan_data s) = Ok l ->
        active_loan_count bid (fst (loan_book now bid loan_data s)) = 1%nat
        /\ forall other, other <> bid ->
             active_loan_count other (fst (loan_book now bid loan_data s))
             = active_loan_count other s).
Proof.
  rewrite active_count_zero. unfold loan_book. split; [split |].
  - intros [l H]. destruct (query_book s bid) as [b |] eqn:Eb;
      [| discriminate].
    destruct (query_active_loan s bid); [discriminate |].
    apply find_key_some in Eb. eauto.
  - intros [[b [Hb Hid]] Hnone].
    destruct (find_present (fun x => book_id x =? bid) (books s) b Hb)
      as [b' Eb]; [now apply Z.eqb_eq |].
    unfold query_book. rewrite Eb, Hnone. eexists. reflexivity.
  - intros l. destruct (query_book s bid); [| discriminate].
    destruct (query_active_loan s bid) eqn:Ea; [discriminate |].
    intros _. cbn [fst]. unfold active_loan_count, active_loans.
    cbn [loan_records]. split.
    + rewrite active_after_append, (filter_find_none _ _ Ea).
      unfold is_active_for. cbn [loan_book_id is_returned].
      now rewrite Z.eqb_refl.
    + intros other Hne. rewrite active_after_append.
      unfold is_active_for at 2. cbn [loan_book_id is_returned].
      apply Z.eqb_neq in Hne. rewrite Z.eqb_sym, Hne. cbn. lia.
Qed.

Lemma In_update_loans pk now rows x :
  In x (update_loans_where_id pk now rows) ->
  exists y, In y rows
            /\ x = (if loan_id y =? pk then mark_returned now y else y).
Proof.
  unfold update_loans_where_id. rewrite in_map_iff.
  intros [y [<- Hy]]. eauto.
Qed.

Lemma reachable_one_active environ s :
  reachable environ s -> one_active_loan_per_book s.
Proof.
  induction 1 as [| x_api_key now req s _ IH].
  - intros bid. unfold active_loan_count. simpl. lia.
  - now apply app_keeps_one_active_loan.
Qed.

(** With at most one unreturned loan per book, returning the unreturned
    loan of a book leaves the book without any. *)
Lemma no_active_after_return now lid s l :
  one_active_loan_per_book s ->
  query_loan s lid = Some l -> is_returned l = false ->
  query_active_loan (fst (return_book now lid s)) (loan_book_id l) = None.
Proof.
  intros Hone Hq Hret. unfold return_book. rewrite Hq, Hret. cbn [fst].
  unfold query_active_loan. cbn [loan_records].
  apply find_key_some in Hq. destruct Hq as [Hl Hid].
  assert (Fl : is_active_for (loan_book_id l) l = true).
  { unfold is_active_for. now rewrite Z.eqb_refl, Hret. }
  apply find_absent. intros x Hx. apply In_update_loans in Hx.
  destruct Hx as [y [Hy ->]].
  destruct (Z.eqb_spec (loan_id y) (loan_id l)) as [E | E];
    [apply mark_returned_inactive |].
  destruct (is_active_for (loan_book_id l) y) eqn:Fy; [| reflexivity].
  exfalso. apply E. f_equal.
  exact (filter_at_most_one _ _ y l (Hone (loan_book_id l)) Hy Fy Hl Fl).
Qed.

Section Loans.

Variable environ : string -> option string.

(** X9. In every store the service reaches, once the unreturned loan of a
    book is returned the book can be loaned again: [loan_book] on that book
    succeeds in the store that [return_book] leaves, for any borrower. *)
Theorem return_then_loan_again now now' lid loan_data s l :
  reachable environ s ->
  query_loan s lid = Some l -> is_returned l = false ->
  exists l2,
    snd (loan_book now' (loan_book_id l) loan_data
                   (fst (return_book now lid s))) = Ok l2
    /\ loan_book_id l2 = loan_book_id l
    /\ borrower_name l2 = lc_borrower_name loan_data
    /\ is_returned l2 = false.
Proof.
  intros Hs Hq Hret.
  pose proof (no_active_after_return now lid s l
                (reachable_one_active environ s Hs) Hq Hret) as Hnone.
  destruct (reachable_wf environ s Hs) as [_ _ _ _ _ H6 _].
  assert (Hl : In l (loan_records s)) by (now apply find_key_some in Hq).
  destruct (find_key_In book_id _ _ (H6 l Hl)) as [b Hb].
  assert (Hbooks : books (fst (return_book now lid s)) = books s).
  { unfold return_book. rewrite Hq, Hret. reflexivity. }
  unfold loan_book at 1. unfold query_book. rewrite Hbooks, Hb, Hnone.
  eexists. cbn [snd]. repeat split.
Qed.

(** X10. In every store the service reaches, the listing of the active
    loans never shows two loans of the same book, and every row it shows is
    a loan of the store that is not returned. *)
Theorem active_listing_one_per_book skip limit s :
  reachable environ s ->
  NoDup (map loan_book_id (list_loans skip limit true s))
  /\ (forall l, In l (list_loans skip limit true s) ->
        In l (loan_records s) /\ is_returned l = false).
Proof.
  intros Hs. pose proof (reachable_one_active environ s Hs) as Hone.
  unfold list_loans. split.
  - assert (Hnd : NoDup (map loan_book_id
                           (filter (fun l => negb (is_returned l))
                                   (loan_records s)))).
    { unfold one_active_loan_per_book, active_loan_count, active_loans in Hone.
      induction (loan_records s) as [| x rows IH]; [constructor |].
      assert (Hrows : forall bid,
                (List.length (filter (is_active_for bid) rows) <= 1)%nat).
      { intros bid. specialize (Hone bid). cbn [filter] in Hone.
        destruct (is_active_for bid x); cbn [List.length] in Hone; lia. }
      cbn [filter]. destruct (is_returned x) eqn:Rx; cbn [negb];
        [now apply IH |].
      cbn [map]. constructor; [| now apply IH].
      intros Hin. apply in_map_iff in Hin. destruct Hin as [y [Ey Hy]].
      apply filter_In in Hy. destruct Hy as [Hy Ry].
      specialize (Hone (loan_book_id x)). cbn [filter] in Hone.
      assert (Fx : is_active_for (loan_book_id x) x = true)
        by (unfold is_active_for; now rewrite Z.eqb_refl, Rx).
      assert (Fy : is_active_for (loan_book_id x) y = true)
        by (unfold is_active_for; now rewrite Ey, Z.eqb_refl, Ry).
      rewrite Fx in Hone. cbn [List.length] in Hone.
      assert (Iy : In y (filter (is_active_for (loan_book_id x)) rows))
        by (apply filter_In; auto).
      destruct (filter (is_active_for (loan_book_id x)) rows);
        [destruct Iy | cbn [List.length] in Hone; lia]. }
    unfold paginate. rewrite <- firstn_map, <- skipn_map.
    set (ks := map loan_book_id _) in *. clearbody ks.
    assert (Hskip : NoDup (skipn skip ks)).
    { clear -Hnd. revert ks Hnd. induction skip as [| n IH];
        intros [| k ks] Hnd; simpl; try assumption.
      apply IH. now inversion Hnd. }
    clear Hnd. revert Hskip. generalize (skipn skip ks). clear.
    induction limit as [| n IH]; intros [| k ks] Hnd; simpl;
      try constructor.
    + inversion Hnd; subst. intros Hin. apply H1.
      clear -Hin. revert ks Hin. induction n as [| n IHn];
        intros [| a ks]; simpl; try tauto.
      intros [-> | H]; auto.
    + apply IH. now inversion Hnd.
  - intros l Hl. apply In_paginate, filter_In in Hl.
    destruct Hl as [Hl Hr]. split; [exact Hl | now apply negb_true_iff].
Qed.

End Loans.

(** ** What no request does *)

(** What a request can do to the author table and to the book table. *)
Lemma endpoint_authors now req s :
  authors (fst (endpoint now req s)) = authors s
  \/ exists a, authors (fst (endpoint now req s)) = (authors s ++ [a])%list.
Proof.
  destruct req; cbn [endpoint]; try rewrite respond_fst; cbn [fst]; auto.
  - right. eexists. reflexivity.
  - unfold create_book. repeat case_match; auto.
  - unfold update_book. repeat case_match; auto.
  - unfold loan_book. repeat case_match; auto.
  - unfold return_book. repeat case_match; auto.
Qed.

Lemma endpoint_books now req s :
  books (fst (endpoint now req s)) = books s
  \/ (exists b, books (fst (endpoint now req s)) = (books s ++ [b])%list)
  \/ (exists pk u,
        books (fst (endpoint now req s))
        = update_books_where_id pk u (books s)).
Proof.
  destruct req; cbn [endpoint]; try rewrite respond_fst; cbn [fst]; auto.
  - unfold create_book. repeat case_match; auto.
    right; left. eexists. reflexivity.
  - unfold update_book. repeat case_match; auto.
    right; right. eexists. eexists. reflexivity.
  - unfold loan_book. repeat case_match; auto.
  - unfold return_book. repeat case_match; auto.
Qed.

Lemma nth_error_update_books pk u rows i b :
  nth_error rows i = Some b ->
  exists b',
    nth_error (update_books_where_id pk u rows) i = Some b'
    /\ book_id b' = book_id b /\ book_author_id b' = book_author_id b.
Proof.
  intros H. unfold update_books_where_id. rewrite nth_error_map, H.
  cbn [option_map]. destruct (book_id b =? pk); eauto.
Qed.

Section History.

Variable environ : string -> option string.

(** X11. No request removes a row or changes what identifies it.  After
    any request, accepted or not: the author table is the old one, with at
    most one author added at the end; every book is still at its position
    with the same id and the same author; every loan is still at its
    position with the same id, book, borrower and loan time. *)
Theorem rows_never_removed x_api_key now req s :
  (exists added,
     authors (fst (app environ x_api_key now req s))
     = (authors s ++ added)%list
     /\ (List.length added <= 1)%nat)
  /\ (forall i b, nth_error (books s) i = Some b ->
        exists b',
          nth_error (books (fst (app environ x_api_key now req s))) i = Some b'
          /\ book_id b' = book_id b
          /\ book_author_id b' = book_author_id b)
  /\ (forall i l, nth_error (loan_records s) i = Some l ->
        exists l',
          nth_error (loan_records (fst (app environ x_api_key now req s))) i
          = Some l'
          /\ loan_id l' = loan_id l /\ loan_book_id l' = loan_book_id l
          /\ borrower_name l' = borrower_name l
          /\ loaned_at l' = loaned_at l).
Proof.
  destruct (app_store environ x_api_key now req s) as [-> | ->].
  { split; [exists []; rewrite app_nil_r; auto | split; eauto 8]. }
  split; [| split].
  - destruct (endpoint_authors now req s) as [-> | [a ->]].
    + exists []. rewrite app_nil_r. auto.
    + exists [a]. auto.
  - intros i b Hb.
    destruct (endpoint_books now req s) as [-> | [[b1 ->] | (pk & u & ->)]].
    + eauto.
    + exists b. rewrite nth_error_app1; [auto |].
      apply nth_error_Some. congruence.
    + now apply nth_error_update_books.
  - intros i l Hl.
    destruct (endpoint_loan_records now req s)
      as [-> | [(bid & w & _ & ->) | [pk ->]]].
    + eauto 8.
    + exists l. rewrite nth_error_app1; [auto 8 |].
      apply nth_error_Some. congruence.
    + rewrite (nth_error_update_loans pk now _ i l Hl).
      destruct (loan_id l =? pk); eauto 8.
Qed.

(** X12. In every store the service reaches, a [return_book] that succeeds
    rewrites the one loan row at position [loan_id - 1], setting its return
    time and flag, and nothing else: the other loan rows, the books and the
    authors are what they were. *)
Theorem return_book_one_row now lid s l :
  reachable environ s ->
  query_loan s lid = Some l -> is_returned l = false ->
  let s' := fst (return_book now lid s) in
  authors s' = authors s /\ books s' = books s
  /\ List.length (loan_records s') = List.length (loan_records s)
  /\ nth_error (loan_records s) (Z.to_nat (lid - 1)) = Some l
  /\ nth_error (loan_records s') (Z.to_nat (lid - 1))
     = Some (mkLoanRecord (loan_id l) (loan_book_id l) (borrower_name l)
                          (loaned_at l) (Some now) true)
  /\ (forall i, i <> Z.to_nat (lid - 1) ->
        nth_error (loan_records s') i = nth_error (loan_records s) i).
Proof.
  intros Hs Hq Hret s'. subst s'.
  destruct (reachable_wf environ s Hs) as [_ _ H3 _ _ _ _].
  assert (Hl : In l (loan_records s) /\ loan_id l = lid)
    by (now apply find_key_some in Hq).
  destruct Hl as [Hl Hid].
  destruct (In_nth_error _ _ Hl) as [k Hk].
  pose proof (nth_error_key loan_id _ k l H3 Hk) as Ek.
  assert (Hpos : Z.to_nat (lid - 1) = k) by lia.
  unfold return_book. rewrite Hq, Hret. cbn [fst authors books loan_records].
  rewrite Hpos, update_loans_length.
  repeat split; try assumption.
  - rewrite (nth_error_update_loans _ now _ k l Hk). now rewrite Z.eqb_refl.
  - intros i Hi. destruct (nth_error (loan_records s) i) as [r |] eqn:Er.
    + rewrite (nth_error_update_loans _ now _ i r Er).
      pose proof (nth_error_key loan_id _ i r H3 Er) as Ei.
      destruct (Z.eqb_spec (loan_id r) (loan_id l)); [lia | reflexivity].
    + apply nth_error_None. rewrite update_loans_length.
      now apply nth_error_None.
Qed.

End History.

(** ** The genre filter on arbitrary patterns *)

Lemma lower_empty g : lower g = "" -> g = "".
Proof. destruct g; [reflexivity | discriminate]. Qed.

Lemma truthy_lower g g' :
  lower g = lower g' ->
  match truthy (Some g), truthy (Some g') with
  | Some _, Some _ | None, None => True
  | _, _ => False
  end.
Proof. destruct g, g'; cbn; try discriminate; auto. Qed.

(** X13. The genre filter of [list_books] does not look at the case of the
    letters of the genre string, wildcards or not: two genre strings that
    differ only in case give the same listing.  An empty genre string
    filters nothing, like no genre at all. *)
Theorem genre_filter_ignores_case skip limit g g' s :
  (lower g = lower g' ->
   list_books skip limit (Some g) s = list_books skip limit (Some g') s)
  /\ list_books skip limit (Some "") s = list_books skip limit None s.
Proof.
  split; [| reflexivity].
  intros E. unfold list_books. pose proof (truthy_lower g g' E) as T.
  destruct g as [| c g], g' as [| c' g']; cbn [truthy] in *; try tauto.
  f_equal. apply filter_ext. intros b. unfold ilike.
  now rewrite !lower_app, E.
Qed.

Lemma pattern_any_suffix rest text :
  pattern_compare rest text = true ->
  pattern_compare (String "%" rest) text = true.
Proof. intros H. now rewrite pattern_percent, H. Qed.

Lemma pattern_skip_char rest c text :
  pattern_compare (String "%" rest) text = true ->
  pattern_compare (String "%" rest) (String c text) = true.
Proof. intros H. rewrite pattern_percent, H. apply orb_true_r. Qed.

(** A wildcard in the pattern only widens the match. *)
Lemma starts_with_pattern g t :
  starts_with_ci g t = true ->
  pattern_compare (lower g ++ "%") (lower t) = true.
Proof.
  revert t. induction g as [| c g IH]; intros t H.
  - apply pattern_percent_only.
  - destruct t as [| d t]; [discriminate |].
    cbn [starts_with_ci] in H. apply andb_true_iff in H.
    destruct H as [Hc Ht]. apply Ascii.eqb_eq in Hc. specialize (IH t Ht).
    cbn [lower append]. rewrite <- Hc.
    destruct (Ascii.eqb (lower_char c) "%") eqn:Ep.
    + apply Ascii.eqb_eq in Ep. rewrite Ep.
      now apply pattern_skip_char, pattern_any_suffix.
    + destruct (Ascii.eqb (lower_char c) "_") eqn:Eu.
      * apply Ascii.eqb_eq in Eu. rewrite Eu. exact IH.
      * rewrite (pattern_literal _ _ _ Ep Eu), Ascii.eqb_refl. exact IH.
Qed.

Lemma contains_pattern g t :
  contains_ci g t = true ->
  pattern_compare (String "%" (lower g ++ "%")) (lower t) = true.
Proof.
  induction t as [| d t IH]; cbn [contains_ci]; intros H.
  - rewrite orb_false_r in H.
    now apply pattern_any_suffix, (starts_with_pattern g "").
  - apply orb_true_iff in H. destruct H as [H | H].
    + now apply pattern_any_suffix, (starts_with_pattern g (String d t)).
    + cbn [lower]. now apply pattern_skip_char, IH.
Qed.

(** A string found in a text without NUL has no NUL. *)
Lemma starts_with_nul_free g t :
  starts_with_ci g t = true -> nul_free t = true -> nul_free g = true.
Proof.
  revert t. induction g as [| c g IH]; intros t H Ht; [reflexivity |].
  destruct t as [| d t]; [discriminate |].
  cbn [starts_with_ci] in H. apply andb_true_iff in H. destruct H as [Hc Hg].
  cbn [nul_free] in *. apply andb_true_iff in Ht. destruct Ht as [Hd Ht].
  apply Ascii.eqb_eq in Hc.
  rewrite <- lower_char_nul, Hc, lower_char_nul, Hd. exact (IH t Hg Ht).
Qed.

Lemma contains_nul_free g t :
  contains_ci g t = true -> nul_free t = true -> nul_free g = true.
Proof.
  induction t as [| d t IH]; cbn [contains_ci]; intros H Ht.
  - rewrite orb_false_r in H. exact (starts_with_nul_free g "" H Ht).
  - apply orb_true_iff in H. destruct H as [H | H].
    + exact (starts_with_nul_free g _ H Ht).
    + apply IH; [exact H |]. cbn [nul_free] in Ht.
      apply andb_true_iff in Ht. tauto.
Qed.

(** X14. Whatever the genre string of at most 49998 bytes, wildcards
    included, the genre filter of [list_books] never leaves out a book
    whose genre, read up to its first NUL, contains the string, the letters
    [A]..[Z] compared without regard to case and every other character as
    it is: whatever the size of the pages, such a book is on one of the
    pages that the handler returns.  And whatever the parameters, every row
    of a listing is a book of the store. *)
Theorem genre_filter_complete now limit g s b :
  utf8_length g + 2 <= SQLITE_MAX_LIKE_PATTERN_LENGTH ->
  sqlite_integer (Z.of_nat limit) = true ->
  sqlite_integer (Z.of_nat (List.length (books s))) = true ->
  ((0 < limit)%nat -> In b (books s) ->
   contains_ci g (until_nul (genre b)) = true ->
   exists skip,
     (skip < List.length (books s))%nat
     /\ endpoint now (GET_books skip limit (Some g)) s
        = (s, Ok (JSON_books (list_books skip limit (Some g) s)))
     /\ In b (list_books skip limit (Some g) s))
  /\ (forall skip genre x,
        In x (list_books skip limit genre s) -> In x (books s)).
Proof.
  intros Hlen Hlimit Hrows. split.
  - intros Hpos Hb Hc.
    assert (Hn : nul_free g = true)
      by exact (contains_nul_free g _ Hc (nul_free_until_nul (genre b))).
    assert (Hrow : exists rows,
               (forall skip, list_books skip limit (Some g) s
                             = paginate skip limit rows)
               /\ In b rows /\ (List.length rows <= List.length (books s))%nat).
    { unfold list_books. destruct (truthy (Some g)) as [g1 |] eqn:T.
      - assert (g1 = g) by (destruct g; cbn in T; congruence). subst g1.
        eexists. split; [reflexivity |]. split; [| apply filter_length_le].
        apply filter_In. split; [exact Hb |].
        rewrite (ilike_pattern g _ Hn). now apply contains_pattern.
      - exists (books s). auto. }
    destruct Hrow as (rows & Hpage & Hin & Hle).
    destruct (In_nth_error rows b Hin) as [i Hi].
    assert (Hlt : (i < List.length rows)%nat)
      by (apply nth_error_Some; congruence).
    exists i. split; [lia |]. split.
    + apply endpoint_books_page; [| exact Hlimit | now apply like_runs_short].
      apply (sqlite_integer_le i (List.length (books s))); [lia | exact Hrows].
    + rewrite Hpage. apply (nth_error_In _ 0).
      rewrite nth_error_paginate.
      destruct (Nat.ltb_spec 0 limit); [| lia].
      now rewrite Nat.add_0_r.
  - intros skip genre x Hx. unfold list_books in Hx.
    apply In_paginate in Hx. destruct (truthy genre); [| exact Hx].
    now apply filter_In in Hx.
Qed.

(** ** Creating a book *)

(** X15. Whatever the store, [create_book] succeeds exactly when some
    author has the [author_id] sent and no book has the ISBN sent.  When it
    succeeds the book table is the old one with the new book at the end,
    so the books that were listed are listed as before, and the author and
    loan tables are untouched. *)
Theorem create_book_succeeds_iff book s :
  ((exists b, snd (create_book book s) = Ok b)
   <-> (exists a, In a (authors s) /\ author_id a = bc_author_id book)
       /\ (forall x, In x (books s) -> isbn x <> bc_isbn book))
  /\ (forall b, snd (create_book book s) = Ok b ->
        books (fst (create_book book s)) = (books s ++ [b])%list
        /\ authors (fst (create_book book s)) = authors s
        /\ loan_records (fst (create_book book s)) = loan_records s).
Proof.
  unfold create_book. split; [split |].
  - intros [b H].
    destruct (query_author s (bc_author_id book)) as [a |] eqn:Ea;
      [| discriminate].
    destruct (query_book_by_isbn s (bc_isbn book)) eqn:Eb; [discriminate |].
    apply find_key_some in Ea. split; [eauto |].
    intros x Hx E. apply (not_in_isbn s _ Eb). rewrite <- E. now apply in_map.
  - intros [[a [Ha Hid]] Hfree].
    destruct (find_present (fun x => author_id x =? bc_author_id book)
                (authors s) a Ha) as [a' Ea]; [now apply Z.eqb_eq |].
    unfold query_author, query_book_by_isbn. rewrite Ea.
    rewrite find_absent; [eexists; reflexivity |].
    intros x Hx. apply String.eqb_neq. now apply Hfree.
  - intros b. destruct (query_author s (bc_author_id book)); [| discriminate].
    destruct (query_book_by_isbn s (bc_isbn book)); [discriminate |].
    cbn [fst snd]. intros [= <-]. auto.
Qed.

(** ** A secret configured as the empty string *)

Section Secret.

Variable environ : string -> option string.

(** X16. When the configured secret is the empty string no request passes
    the access gate: whatever its [X-API-Key] header, a request to a
    mutating route is answered with the 401 or the 403 and the store is
    left as it was.  When the secret is not empty, the request that carries
    it is answered by the handler. *)
Theorem empty_secret_locks_out x_api_key now req s :
  mutating req = true ->
  (AUTH_KEY environ = "" ->
     fst (app environ x_api_key now req s) = s
     /\ (raises (snd (app environ x_api_key now req s)) Unauthenticated
         \/ raises (snd (app environ x_api_key now req s)) Forbidden))
  /\ (AUTH_KEY environ <> "" ->
        app environ (Some (AUTH_KEY environ)) now req s = endpoint now req s).
Proof.
  intros Hm. rewrite !(app_mutating _ _ _ _ _ Hm).
  unfold Depends_verify_api_key. split.
  - intros Hsecret.
    destruct (api_key_header x_api_key) as [k |] eqn:Ek.
    + assert (Hk : k <> AUTH_KEY environ).
      { rewrite Hsecret. intros ->.
        destruct x_api_key as [[| c h] |]; discriminate. }
      rewrite (verify_api_key_invalid environ k Hk). cbn [fst snd].
      split; [reflexivity |]. right. eexists. reflexivity.
    + cbn [verify_api_key fst snd]. split; [reflexivity |].
      left. eexists. reflexivity.
  - intros Hsecret. rewrite (api_key_header_value _ Hsecret).
    now rewrite verify_api_key_valid.
Qed.

End Secret.

(** ** Repeating a request *)

Lemma set_column_twice c f : set_column (set_column c f) f = set_column c f.
Proof. now destruct f as [[v |] |]. Qed.

Lemma update_books_twice pk u rows :
  update_books_where_id pk u (update_books_where_id pk u rows)
  = update_books_where_id pk u rows.
Proof.
  unfold update_books_where_id. rewrite map_map. apply map_ext. intros b.
  destruct (book_id b =? pk) eqn:E; cbn [book_id]; rewrite E;
    [| reflexivity].
  cbn [title genre isbn book_author_id]. now rewrite !set_column_twice.
Qed.

Lemma next_id_app ids : next_id (ids ++ [next_id ids]) = next_id ids + 1.
Proof.
  unfold next_id. rewrite fold_right_app. cbn [fold_right].
  assert (H : forall a, 0 <= a -> fold_right Z.max 0 ids <= a ->
                        fold_right Z.max a ids = a).
  { induction ids as [| x ids IH]; cbn [fold_right]; intros a Ha Hle;
      [reflexivity |].
    rewrite IH; lia. }
  assert (H0 : 0 <= fold_right Z.max 0 ids).
  { clear. induction ids as [| x ids IH]; cbn [fold_right]; lia. }
  rewrite H; lia.
Qed.

(** X17. [update_book] can be repeated: when an update succeeds, sending
    the same update again succeeds too, returns the same book and leaves
    the store as the first one left it. *)
Theorem update_book_idempotent bid u s b :
  snd (update_book bid u s) = Ok b ->
  update_book bid u (fst (update_book bid u s))
  = (fst (update_book bid u s), Ok b).
Proof.
  intros Hok. destruct (query_book s bid) as [b0 |] eqn:Hq.
  2:{ unfold update_book in Hok. rewrite Hq in Hok. discriminate. }
  destruct (update_book_ok_inv bid u s b0 b Hq Hok) as [He Hn].
  assert (Hid : book_id b0 = bid) by (now apply find_key_some in Hq).
  subst bid. rewrite (update_book_applied _ u s b0 Hq He Hn) in *.
  cbn [fst snd] in *. injection Hok as <-.
  set (b1 := mkBook _ _ _ _ _). set (s1 := mkStore _ _ _).
  assert (Hq1 : query_book s1 (book_id b0) = Some b1).
  { unfold query_book, s1. cbn [books]. now apply find_update_books. }
  assert (He1 : existing_isbn s1 b1 (bu_isbn u) = None).
  { destruct (bu_isbn u) as [[v |] |]; cbn; try reflexivity.
    now rewrite String.eqb_refl. }
  rewrite (update_book_applied _ u s1 b1 Hq1 He1 Hn).
  unfold s1, b1. cbn [authors books loan_records book_id title genre isbn
                       book_author_id].
  now rewrite update_books_twice, !set_column_twice.
Qed.

(** X18. [create_book] cannot be repeated: whatever the store, once a
    [create_book] has succeeded the same request raises the 400 that names
    the ISBN and changes nothing.  [create_author] can: the same request
    creates a second author, with the next id. *)
Theorem create_twice :
  (forall book s b,
     snd (create_book book s) = Ok b ->
     create_book book (fst (create_book book s))
     = (fst (create_book book s),
        Raise (HTTPException HTTP_400_BAD_REQUEST
                 ("Book with ISBN " ++ bc_isbn book ++ " already exists"))))
  /\ (forall author s,
        exists a1 a2,
          snd (create_author author s) = Ok a1
          /\ snd (create_author author (fst (create_author author s))) = Ok a2
          /\ author_id a2 = author_id a1 + 1
          /\ name a2 = name a1 /\ bio a2 = bio a1).
Proof.
  split.
  - intros book s b. unfold create_book at 1 3 4.
    destruct (query_author s (bc_author_id book)) as [a |] eqn:Ea;
      [| discriminate].
    destruct (query_book_by_isbn s (bc_isbn book)) eqn:Eb; [discriminate |].
    cbn [fst snd]. intros _. unfold create_book, query_author.
    cbn [authors]. fold (query_author s (bc_author_id book)). rewrite Ea.
    unfold query_book_by_isbn. cbn [books].
    destruct (find_present (fun x => String.eqb (isbn x) (bc_isbn book))
                (books s ++ [mkBook (next_id (map book_id (books s)))
                                    (bc_title book) (bc_genre book)
                                    (bc_isbn book) (bc_author_id book)])
                (mkBook (next_id (map book_id (books s)))
                        (bc_title book) (bc_genre book)
                        (bc_isbn book) (bc_author_id book))) as [x Ex].
    + apply in_or_app. right. now left.
    + apply String.eqb_refl.
    + now rewrite Ex.
  - intros author s. unfold create_author. cbn [fst snd authors].
    eexists. eexists. split; [reflexivity |]. split; [reflexivity |].
    cbn [author_id name bio]. rewrite map_app. cbn [map author_id].
    now rewrite next_id_app.
Qed.

(** * The further properties at work on the demo library *)

Lemma demo_store_reachable : reachable no_env demo_store.
Proof.
  exact (reachable_run no_env demo_log empty_store (reachable_empty no_env)).
Qed.

Lemma demo_returned_reachable : reachable no_env demo_returned.
Proof.
  exact (reachable_run no_env
           (demo_log ++ [(dev_key, 105, POST_loan_return 1)])
           empty_store (reachable_empty no_env)).
Qed.

Lemma keys_in_sequence_witness :
  reachable no_env demo_store
  /\ nth_error (books demo_store) 1 = Some demo_book2
  /\ book_id demo_book2 = Z.of_nat 1 + 1.
Proof.
  split; [exact demo_store_reachable |]. split; [reflexivity |].
  exact (proj1 (proj2 (keys_in_sequence no_env demo_store
                         demo_store_reachable)) 1%nat demo_book2 eq_refl).
Defined.

Lemma isbn_unique_witness :
  reachable no_env demo_store
  /\ (isbn demo_book1 = isbn (mkBook 1 "B" "Fiction" "1111111111111" 1) ->
      demo_book1 = mkBook 1 "B" "Fiction" "1111111111111" 1).
Proof.
  split; [exact demo_store_reachable |].
  apply (isbn_unique no_env demo_store demo_book1 _ demo_store_reachable);
    simpl; auto.
Defined.

Lemma relationships_consistent_witness :
  reachable no_env demo_store
  /\ (exists a, Book_author demo_store demo_book2 = Some a
                /\ In a (authors demo_store))
  /\ (In demo_book2 (Author_books demo_store (mkAuthor 1 "A" None))
      <-> In demo_book2 (books demo_store)
          /\ Book_author demo_store demo_book2 = Some (mkAuthor 1 "A" None))
  /\ (exists b, LoanRecord_book demo_store demo_loan1 = Some b
                /\ In b (books demo_store)).
Proof.
  destruct (relationships_consistent no_env demo_store demo_store_reachable)
    as (H1 & H2 & H3 & _).
  split; [exact demo_store_reachable |]. split; [| split].
  - apply H1. simpl. auto.
  - apply H2. simpl. auto.
  - apply H3. simpl. auto.
Defined.

Lemma get_by_id_witness :
  reachable no_env demo_store
  /\ get_book 2 demo_store = Ok demo_book2
  /\ get_book 0 demo_store
     = Raise (HTTPException 404 "Book with id 0 not found")
  /\ get_author 2 demo_store
     = Raise (HTTPException 404 "Author with id 2 not found")
  /\ get_book (2 ^ 63) demo_store
     = Raise (OverflowError
                "Python int too large to convert to SQLite INTEGER").
Proof.
  split; [exact demo_store_reachable |].
  destruct (get_by_id no_env demo_store 2 demo_store_reachable)
    as (_ & A2 & B1 & _).
  destruct (get_by_id no_env demo_store 0 demo_store_reachable)
    as (_ & _ & _ & B0).
  destruct (get_by_id no_env demo_store (2 ^ 63) demo_store_reachable)
    as (_ & _ & _ & B63).
  split; [| split; [| split]].
  - destruct B1 as (b & Hb & ->); [simpl; lia |].
    simpl in Hb. now injection Hb as <-.
  - apply B0. simpl. lia.
  - apply A2. simpl. lia.
  - apply B63. simpl. lia.
Defined.

Lemma returned_at_iff_returned_witness :
  reachable no_env demo_returned
  /\ (is_returned (mkLoanRecord 1 1 "John" 103 (Some 105) true) = true
      <-> exists t,
            returned_at (mkLoanRecord 1 1 "John" 103 (Some 105) true)
            = Some t).
Proof.
  split; [exact demo_returned_reachable |].
  apply (returned_at_iff_returned no_env demo_returned _
           demo_returned_reachable).
  simpl. auto.
Defined.

Lemma create_then_get_witness :
  let book := mkBookCreate "D" "Poetry" "3333333333" 1 in
  snd (create_book book demo_store) = Ok (mkBook 3 "D" "Poetry" "3333333333" 1)
  /\ get_book 3 (fst (create_book book demo_store))
     = Ok (mkBook 3 "D" "Poetry" "3333333333" 1)
  /\ get_book 1 (fst (create_book book demo_store)) = Ok demo_book1.
Proof.
  intros book.
  assert (E : snd (create_book book demo_store)
              = Ok (mkBook 3 "D" "Poetry" "3333333333" 1)) by reflexivity.
  destruct (proj1 (proj2 create_then_get) book demo_store _ E)
    as (_ & _ & _ & _ & Hget & Hold).
  split; [exact E |]. split; [exact Hget |].
  apply Hold. reflexivity.
Defined.

Lemma listing_pages_witness :
  sqlite_integer (Z.of_nat (1 + 1 + 0)) = true
  /\ endpoint 104 (GET_books 1 1 None) demo_store
     = (demo_store, Ok (JSON_books (list_books 1 1 None demo_store)))
  /\ nth_error (list_books 1 1 None demo_store) 0 = Some demo_book2
  /\ list_books 0 (1 + 1) None demo_store
     = (list_books 0 1 None demo_store ++ list_books 1 1 None demo_store)%list
  /\ list_books 2 100 (Some "fiction") demo_store = [].
Proof.
  destruct (listing_pages 104 1 1 0 None false demo_store eq_refl eq_refl)
    as (Hpage & Hnth & _).
  destruct (listing_pages 104 0 1 1 None false demo_store eq_refl eq_refl)
    as (_ & _ & _ & Hcat & _).
  destruct (listing_pages 104 2 100 0 (Some "fiction") false demo_store
              eq_refl eq_refl)
    as (_ & _ & _ & _ & _ & Hend & _).
  split; [reflexivity |]. split; [| split; [| split]].
  - apply (Hpage 1%nat 1%nat). simpl. lia.
  - rewrite (proj1 (proj2 (proj2 (Hnth 0%nat (Nat.lt_0_succ 0))))).
    reflexivity.
  - exact (proj1 (proj2 Hcat)).
  - apply Hend. simpl. lia.
Defined.

Lemma loan_book_available_witness :
  (exists l, snd (loan_book 106 2 (mkLoanRecordCreate "Jane") demo_store)
             = Ok l)
  /\ active_loan_count 2
       (fst (loan_book 106 2 (mkLoanRecordCreate "Jane") demo_store)) = 1%nat
  /\ ~ (exists l, snd (loan_book 106 1 (mkLoanRecordCreate "Jane") demo_store)
                  = Ok l).
Proof.
  destruct (loan_book_available 106 2 (mkLoanRecordCreate "Jane") demo_store)
    as [Hiff Hcount].
  destruct (loan_book_available 106 1 (mkLoanRecordCreate "Jane") demo_store)
    as [Hiff1 _].
  assert (Hok : exists l,
             snd (loan_book 106 2 (mkLoanRecordCreate "Jane") demo_store)
             = Ok l).
  { apply Hiff. split; [| reflexivity]. exists demo_book2. simpl. auto. }
  split; [exact Hok |]. split.
  - destruct Hok as [l Hl]. exact (proj1 (Hcount l Hl)).
  - intros H. apply Hiff1 in H. destruct H as [_ H]. discriminate H.
Defined.

Lemma return_then_loan_again_witness :
  reachable no_env demo_store
  /\ exists l2,
       snd (loan_book 106 1 (mkLoanRecordCreate "Jane")
                      (fst (return_book 105 1 demo_store))) = Ok l2
       /\ loan_book_id l2 = 1
       /\ borrower_name l2 = "Jane"
       /\ is_returned l2 = false.
Proof.
  split; [exact demo_store_reachable |].
  exact (return_then_loan_again no_env 105 106 1 (mkLoanRecordCreate "Jane")
           demo_store demo_loan1 demo_store_reachable eq_refl eq_refl).
Defined.

Lemma active_listing_one_per_book_witness :
  reachable no_env demo_store
  /\ NoDup (map loan_book_id (list_loans 0 100 true demo_store)).
Proof.
  split; [exact demo_store_reachable |].
  exact (proj1 (active_listing_one_per_book no_env 0 100 demo_store
                  demo_store_reachable)).
Defined.

Lemma rows_never_removed_witness :
  let req := PUT_book 2 (mkBookUpdate (Some (Some "C2")) None None) in
  nth_error (books demo_store) 1 = Some demo_book2
  /\ exists b',
       nth_error (books (fst (app no_env dev_key 104 req demo_store))) 1
       = Some b'
       /\ book_id b' = 2 /\ book_author_id b' = 1.
Proof.
  intros req. split; [reflexivity |].
  exact (proj1 (proj2 (rows_never_removed no_env dev_key 104 req demo_store))
           1%nat demo_book2 eq_refl).
Defined.

Lemma return_book_one_row_witness :
  reachable no_env demo_store
  /\ nth_error (loan_records (fst (return_book 105 1 demo_store))) 0
     = Some (mkLoanRecord 1 1 "John" 103 (Some 105) true)
  /\ books (fst (return_book 105 1 demo_store)) = books demo_store.
Proof.
  split; [exact demo_store_reachable |].
  pose proof (return_book_one_row no_env 105 1 demo_store demo_loan1
                demo_store_reachable eq_refl eq_refl) as H.
  cbv zeta in H. destruct H as (_ & Hb & _ & _ & Hrow & _).
  split; [exact Hrow | exact Hb].
Defined.

Lemma genre_filter_ignores_case_witness :
  lower "FICT_ON" = lower "fict_on"
  /\ list_books 0 100 (Some "FICT_ON") demo_store
     = list_books 0 100 (Some "fict_on") demo_store.
Proof.
  split; [reflexivity |].
  exact (proj1 (genre_filter_ignores_case 0 100 "FICT_ON" "fict_on"
                  demo_store) eq_refl).
Defined.

Lemma genre_filter_complete_witness :
  In demo_book2 (books demo_store)
  /\ contains_ci "SCI" (until_nul (genre demo_book2)) = true
  /\ exists skip,
       (skip < List.length (books demo_store))%nat
       /\ endpoint 104 (GET_books skip 1 (Some "SCI")) demo_store
          = (demo_store,
             Ok (JSON_books (list_books skip 1 (Some "SCI") demo_store)))
       /\ In demo_book2 (list_books skip 1 (Some "SCI") demo_store).
Proof.
  assert (Hb : In demo_book2 (books demo_store)) by (simpl; auto).
  assert (Hlen : utf8_length "SCI" + 2 <= SQLITE_MAX_LIKE_PATTERN_LENGTH)
    by (vm_compute; discriminate).
  split; [exact Hb |]. split; [reflexivity |].
  exact (proj1 (genre_filter_complete 104 1 "SCI" demo_store demo_book2
                  Hlen eq_refl eq_refl)
           (Nat.lt_0_succ 0) Hb eq_refl).
Defined.

Lemma create_book_succeeds_iff_witness :
  let book := mkBookCreate "D" "Poetry" "3333333333" 1 in
  (exists b, snd (create_book book demo_store) = Ok b)
  /\ books (fst (create_book book demo_store))
     = (books demo_store ++ [mkBook 3 "D" "Poetry" "3333333333" 1])%list.
Proof.
  intros book.
  destruct (create_book_succeeds_iff book demo_store) as [Hiff Hok].
  split.
  - apply Hiff. split.
    + exists (mkAuthor 1 "A" None). simpl. auto.
    + simpl. intros x [<- | [<- | []]]; discriminate.
  - exact (proj1 (Hok (mkBook 3 "D" "Poetry" "3333333333" 1) eq_refl)).
Defined.

Lemma empty_secret_locks_out_witness :
  AUTH_KEY empty_secret_env = ""
  /\ fst (app empty_secret_env (Some "") 104 (POST_loan_return 1) demo_store)
     = demo_store
  /\ AUTH_KEY no_env <> ""
  /\ app no_env (Some (AUTH_KEY no_env)) 104 (POST_loan_return 1) demo_store
     = endpoint 104 (POST_loan_return 1) demo_store.
Proof.
  assert (H0 : AUTH_KEY no_env <> "") by (vm_compute; discriminate).
  split; [reflexivity |]. split; [| split; [exact H0 |]].
  - exact (proj1 (proj1 (empty_secret_locks_out empty_secret_env (Some "") 104
                           (POST_loan_return 1) demo_store eq_refl) eq_refl)).
  - exact (proj2 (empty_secret_locks_out no_env None 104
                    (POST_loan_return 1) demo_store eq_refl) H0).
Defined.

Lemma update_book_idempotent_witness :
  let u := mkBookUpdate (Some (Some "New title")) None None in
  snd (update_book 1 u demo_store)
  = Ok (mkBook 1 "New title" "Fiction" "1111111111111" 1)
  /\ update_book 1 u (fst (update_book 1 u demo_store))
     = (fst (update_book 1 u demo_store),
        Ok (mkBook 1 "New title" "Fiction" "1111111111111" 1)).
Proof.
  intros u. split; [reflexivity |].
  exact (update_book_idempotent 1 u demo_store _ eq_refl).
Defined.

Lemma create_twice_witness :
  let book := mkBookCreate "D" "Poetry" "3333333333" 1 in
  snd (create_book book demo_store) = Ok (mkBook 3 "D" "Poetry" "3333333333" 1)
  /\ create_book book (fst (create_book book demo_store))
     = (fst (create_book book demo_store),
        Raise (HTTPException 400 "Book with ISBN 3333333333 already exists")).
Proof.
  intros book. split; [reflexivity |].
  exact (proj1 create_twice book demo_store _ eq_refl).
Defined.
